(** * Crypto_Indicators: a shallow embedding of [crypto_indicators.py]

    The script fetches one-minute candles, derives a trailing moving average
    and an overall percentage change, and writes them as CSV.  This file
    embeds its four functions and proves the properties its specification
    states about them.

    Modelling conventions.
    - The script's [float] values are binary64, and the numeric code is
      embedded twice.  Module [B64] has a float as the Standard Library's
      [spec_float], with the IEEE 754 operations, the rounding of int
      quotients and conversions and [OverflowError]; what fixes the value
      of an indicator or of a decoded timestamp is stated there.  The
      top-level definitions take a float for the rational it stands for
      ([Qc], the canonical rationals, so that numeric equality is Leibniz
      equality) and compute exactly; they carry the fetch policy, the
      writer and the entry point, and the properties of the indicators that
      relate one run to another.
    - Python [int] is [Z]; [str] is [string] (bytes; case mapping is the
      ASCII one); a [list] is a [list]; the candle [dict] with its six fixed
      keys is the record [Candle].
    - A Python exception is a value [Raise e] of [result]; [print] and
      [sys.exit] are modelled by a log of printed lines and an [outcome]. *)

From Stdlib Require Import ZArith QArith Qcanon Qround Qabs String Ascii.
From Corelib Require Import SpecFloat FloatOps.
From stdpp Require Import base option list list_monad gmap strings pretty.

Local Open Scope Z_scope.

(** ** Exceptions and the result monad *)

Inductive PyError : Type :=
  | IndexError
  | ZeroDivisionError
  | TypeError
  | ValueError
  | OverflowError.

Inductive result (A : Type) : Type :=
  | Ok (a : A)
  | Raise (e : PyError).
Arguments Ok {A} a.
Arguments Raise {A} e.

#[global] Instance result_ret : MRet result := λ A a, Ok a.
#[global] Instance result_bind : MBind result := λ A B f m,
  match m with
  | Ok a => f a
  | Raise e => Raise e
  end.

#[global] Instance result_fmap : FMap result := λ A B f m,
  match m with
  | Ok a => Ok (f a)
  | Raise e => Raise e
  end.

(** A [for] loop that threads an accumulator and stops at the first
    exception. *)
Fixpoint foldM {A B : Type} (f : B → A → result B) (acc : B) (l : list A)
  : result B :=
  match l with
  | [] => Ok acc
  | x :: l' => acc' ← f acc x; foldM f acc' l'
  end.

(** ** Python primitives used by the script *)

(** [len(l)] *)
Definition len {A : Type} (l : list A) : Z := Z.of_nat (length l).

(** [l[j]]: a negative index counts from the end, an index out of range
    raises [IndexError]. *)
Definition py_getitem {A : Type} (l : list A) (j : Z) : result A :=
  let k := if j <? 0 then j + len l else j in
  if (k <? 0) || (len l <=? k) then Raise IndexError
  else match l !! Z.to_nat k with
       | Some x => Ok x
       | None => Raise IndexError
       end.

(** [range(a, b)] *)
Definition py_range (a b : Z) : list Z :=
  (λ k : nat, a + Z.of_nat k) <$> seq 0 (Z.to_nat (b - a)).

(** [sum(l)]: additions from the left, starting at [0]. *)
Definition py_sum (l : list Qc) : Qc := foldl Qcplus (Q2Qc 0) l.

(** The number an [int] denotes. *)
Definition of_int (z : Z) : Qc := Q2Qc (inject_Z z).

(** [x / y] on numbers: a zero divisor raises [ZeroDivisionError]. *)
Definition py_truediv (x y : Qc) : result Qc :=
  if Qc_eq_bool y (Q2Qc 0) then Raise ZeroDivisionError else Ok (x / y)%Qc.

(** ** Data model *)

(** One candle: the dict with keys timestamp, open, high, low, close and
    volume built by [fetch_ohlcv]. *)
Record Candle : Type := mkCandle {
  timestamp : Z;
  open : Qc;
  high : Qc;
  low : Qc;
  close : Qc;
  volume : Qc
}.

(** ** Indicator engine *)

(** The body of the [for i in range(len(data))] loop of [compute_sma]:
    [sma_values] is the accumulator. *)
Definition sma_step (data : list Candle) (window : Z)
    (sma_values : list Qc) (i : Z) : result (list Qc) :=
  if i <? window - 1 then
    row ← py_getitem data i;
    Ok (sma_values ++ [close row])
  else
    window_closes ←
      mapM (λ j, row ← py_getitem data j; Ok (close row))
           (py_range (i - window + 1) (i + 1));
    sma ← py_truediv (py_sum window_closes) (of_int window);
    Ok (sma_values ++ [sma]).

Definition compute_sma (data : list Candle) (window : Z) : result (list Qc) :=
  foldM (sma_step data window) [] (py_range 0 (len data)).

Definition compute_pct_change (data : list Candle) : result Qc :=
  if len data <? 2 then Ok (Q2Qc 0)
  else
    first ← py_getitem data 0;
    last ← py_getitem data (-1);
    let first_close := close first in
    let last_close := close last in
    if Qc_eq_bool first_close (Q2Qc 0) then Ok (Q2Qc 0)
    else
      d ← py_truediv (last_close - first_close)%Qc first_close;
      Ok (d * of_int 100)%Qc.

(** ** Strings *)

Definition ascii_lower (a : ascii) : ascii :=
  let n := N_of_ascii a in
  if (65 <=? n)%N && (n <=? 90)%N then ascii_of_N (n + 32) else a.

Definition ascii_upper (a : ascii) : ascii :=
  let n := N_of_ascii a in
  if (97 <=? n)%N && (n <=? 122)%N then ascii_of_N (n - 32) else a.

Fixpoint string_map (f : ascii → ascii) (s : string) : string :=
  match s with
  | EmptyString => EmptyString
  | String a s' => String (f a) (string_map f s')
  end.

(** [s.lower()] and [s.upper()] *)
Definition lower (s : string) : string := string_map ascii_lower s.
Definition upper (s : string) : string := string_map ascii_upper s.

(** [s.endswith(suffix)] *)
Definition endswith (s suffix : string) : bool :=
  let n := String.length s in
  let m := String.length suffix in
  (m <=? n)%nat && String.eqb (substring (n - m) m s) suffix.

(** [str(z)] for an [int]. *)
Definition str_of_int (z : Z) : string := pretty z.

(** ** Symbol resolver (the head of [fetch_ohlcv]) *)

Definition symbol_entries : list (string * string) :=
  [ ("bitcoin", "BTCUSDT");
    ("ethereum", "ETHUSDT");
    ("cardano", "ADAUSDT");
    ("solana", "SOLUSDT");
    ("dogecoin", "DOGEUSDT");
    ("litecoin", "LTCUSDT");
    ("chainlink", "LINKUSDT");
    ("polkadot", "DOTUSDT") ]%string.

Definition symbol_map : gmap string string := list_to_map symbol_entries.

(** The value of [trading_pair] once the [if]/[elif] on the suffix is done. *)
Definition resolve (symbol : string) : string :=
  let trading_pair := default (upper symbol) (symbol_map !! lower symbol) in
  if negb (endswith trading_pair "USDT")
     && bool_decide (is_Some (symbol_map !! lower symbol))
  then symbol_map !!! lower symbol
  else if negb (endswith trading_pair "USDT")
  then trading_pair +:+ "USDT"
  else trading_pair.

(** ** Printing and exiting *)

Inductive outcome (A : Type) : Type :=
  | Return (a : A)
  | Exit (code : Z)
  | Uncaught (e : PyError).
Arguments Return {A} a.
Arguments Exit {A} code.
Arguments Uncaught {A} e.

(** A run: the lines printed, in order, and how the run ended. *)
Definition io (A : Type) : Type := list string * outcome A.

#[global] Instance io_ret : MRet io := λ A a, ([], Return a).
#[global] Instance io_bind : MBind io := λ A B f m,
  match m with
  | (out, Return a) => let '(out', r) := f a in (out ++ out', r)
  | (out, Exit c) => (out, Exit c)
  | (out, Uncaught e) => (out, Uncaught e)
  end.

Definition print (line : string) : io unit := ([line], Return tt).
Definition sys_exit {A : Type} (code : Z) : io A := ([], Exit code).
Definition lift {A : Type} (r : result A) : io A :=
  match r with
  | Ok a => ([], Return a)
  | Raise e => ([], Uncaught e)
  end.

(** ** Market data fetcher *)

(** A field of a raw candle record, as [response.json()] delivers it. *)
Inductive json : Type :=
  | JNull
  | JBool (b : bool)
  | JInt (z : Z)
  | JFloat (q : Qc)
  | JStr (s : string).

(** What the GET request produced: an exception of [requests] (transport
    failure, timeout, or a status [raise_for_status] rejects), a body that
    is not JSON, or the decoded array of raw candle records. *)
Inductive http_reply : Type :=
  | RequestException (e : string)
  | JSONDecodeError (e : string)
  | JsonBody (data : list (list json)).

(** [int(x)] for a number: truncation toward zero. *)
Definition py_int (x : Qc) : Z := Z.quot (Qnum x) (Zpos (Qden x)).

(** The operand of an arithmetic operator: numbers only. *)
Definition py_number (v : json) : result Qc :=
  match v with
  | JInt z => Ok (of_int z)
  | JFloat q => Ok q
  | JBool b => Ok (of_int (if b then 1 else 0))
  | JNull | JStr _ => Raise TypeError
  end.

Section Fetcher.

(** The grammar [float()] accepts on a [str] is the interpreter's; the
    fetcher is embedded over any such parser. *)
Variable float_of_str : string → result Qc.

(** [float(v)] *)
Definition py_float (v : json) : result Qc :=
  match v with
  | JStr s => float_of_str s
  | JInt z => Ok (of_int z)
  | JFloat q => Ok q
  | JBool b => Ok (of_int (if b then 1 else 0))
  | JNull => Raise TypeError
  end.

(** The dict built for one [kline]. *)
Definition decode_kline (kline : list json) : result Candle :=
  k0 ← py_getitem kline 0;
  ms ← py_number k0;
  secs ← py_truediv ms (of_int 1000);
  k1 ← py_getitem kline 1; o ← py_float k1;
  k2 ← py_getitem kline 2; h ← py_float k2;
  k3 ← py_getitem kline 3; l ← py_float k3;
  k4 ← py_getitem kline 4; c ← py_float k4;
  k5 ← py_getitem kline 5; v ← py_float k5;
  Ok {| timestamp := py_int secs;
        open := o; high := h; low := l; close := c; volume := v |}.

(** The conversion loop [for kline in data: ohlcv_data.append(...)]. *)
Definition convert_klines (data : list (list json)) : result (list Candle) :=
  foldM (λ ohlcv_data kline,
           row ← decode_kline kline; Ok (ohlcv_data ++ [row])) [] data.

Definition fetch_ohlcv (symbol : string) (reply : http_reply)
  : io (list Candle) :=
  let trading_pair := resolve symbol in
  print ("Fetching data for " +:+ trading_pair +:+ "...");;
  data ← match reply with
         | RequestException e =>
             print ("Error fetching data: " +:+ e);;
             print ("Note: Make sure the symbol '" +:+ trading_pair
                    +:+ "' exists on Binance");;
             sys_exit 1
         | JSONDecodeError e =>
             print ("Error parsing JSON response: " +:+ e);;
             sys_exit 1
         | JsonBody [] =>
             print ("Error: No data found for " +:+ trading_pair);;
             sys_exit 1
         | JsonBody data => mret data
         end;
  (if len data <? 60 then
     print ("Warning: Only " +:+ str_of_int (len data)
            +:+ " minutes of data available (expected 60)");;
     if len data <? 10 then
       print "Error: Insufficient data for analysis (need at least 10 minutes)";;
       sys_exit 1
     else mret tt
   else mret tt);;
  ohlcv_data ← lift (convert_klines data);
  print ("Successfully fetched " +:+ str_of_int (len ohlcv_data)
         +:+ " minutes of OHLCV data");;
  mret ohlcv_data.

End Fetcher.

(** ** Tabular writer *)

(** The integer nearest to [q], a tie going to the even neighbour: the
    rounding of the [.2f] format. *)
Definition round_half_even (q : Q) : Z :=
  let f := Qfloor q in
  match Qcompare (q - inject_Z f) (1 # 2) with
  | Lt => f
  | Gt => f + 1
  | Eq => if Z.even f then f else f + 1
  end.

Definition digit_char (d : Z) : ascii := pretty_N_char (Z.to_N d).

(** [f"{x:.2f}"]: sign, integer part, a point and two digits. *)
Definition format_2f (x : Qc) : string :=
  let n := round_half_even (Qabs x * inject_Z 100) in
  (if Qlt_le_dec x 0 then "-" else "")
  +:+ str_of_int (n / 100)
  +:+ String "."
        (String (digit_char (n mod 100 / 10))
           (String (digit_char (n mod 10)) "")).

(** A value handed to the csv writer: the timestamp is an [int], every
    other field is already a [str]. *)
Inductive cell : Type :=
  | CInt (z : Z)
  | CStr (s : string).

Definition cell_text (c : cell) : string :=
  match c with
  | CInt z => str_of_int z
  | CStr s => s
  end.

Definition CR : ascii := "013"%char.
Definition LF : ascii := "010"%char.
Definition DQUOTE : ascii := "034"%char.
Definition CRLF : string := String CR (String LF "").

(** The characters that make the writer quote a field (minimal quoting of
    the default dialect). *)
Definition csv_special (a : ascii) : bool :=
  Ascii.eqb a "," || Ascii.eqb a DQUOTE || Ascii.eqb a CR || Ascii.eqb a LF.

Fixpoint string_exists (p : ascii → bool) (s : string) : bool :=
  match s with
  | EmptyString => false
  | String a s' => p a || string_exists p s'
  end.

Fixpoint csv_escape (s : string) : string :=
  match s with
  | EmptyString => EmptyString
  | String a s' =>
      if Ascii.eqb a DQUOTE then String a (String a (csv_escape s'))
      else String a (csv_escape s')
  end.

Definition csv_field (s : string) : string :=
  if string_exists csv_special s
  then String DQUOTE (csv_escape s +:+ String DQUOTE "")
  else s.

Fixpoint join (sep : string) (l : list string) : string :=
  match l with
  | [] => ""
  | [s] => s
  | s :: l' => s +:+ sep +:+ join sep l'
  end.

(** The text [writer.writerow] appends for one record of several fields. *)
Definition csv_line (cells : list cell) : string :=
  join "," (csv_field ∘ cell_text <$> cells) +:+ CRLF.

Definition fieldnames : list string :=
  [ "timestamp"; "open"; "high"; "low"; "close"; "volume"; "sma_10";
    "pct_change" ]%string.

(** [output_row], in the order of [fieldnames]. *)
Definition output_row (i : Z) (row : Candle) (sma_list : list Qc) (pct : Qc)
  : result (list cell) :=
  sma_10 ← (if i <? len sma_list
            then s ← py_getitem sma_list i; Ok (format_2f s)
            else Ok ""%string);
  Ok [ CInt (timestamp row);
       CStr (format_2f (open row));
       CStr (format_2f (high row));
       CStr (format_2f (low row));
       CStr (format_2f (close row));
       CStr (format_2f (volume row));
       CStr sma_10;
       CStr (format_2f pct) ].

(** The loop [for i, row in enumerate(data)], from index [i] on: [text] is
    what the file holds so far, and stays behind when a row raises. *)
Fixpoint write_rows (i : Z) (data : list Candle) (sma_list : list Qc)
    (pct : Qc) (text : string) : string * result unit :=
  match data with
  | [] => (text, Ok tt)
  | row :: data' =>
      match output_row i row sma_list pct with
      | Ok cells =>
          write_rows (i + 1) data' sma_list pct (text +:+ csv_line cells)
      | Raise e => (text, Raise e)
      end
  end.

(** The text of the file once the [with] block is left. *)
Definition csv_text (data : list Candle) (sma_list : list Qc) (pct : Qc)
  : string * result unit :=
  write_rows 0 data sma_list pct (csv_line (CStr <$> fieldnames)).

(** [write_csv]: [io_error] is the [IOError] the destination answers
    [open] with, if any; [files] maps a path to the text stored there. *)
Definition write_csv (data : list Candle) (sma_list : list Qc) (pct : Qc)
    (out_path : string) (io_error : option string)
    (files : gmap string string) : gmap string string * io unit :=
  match io_error with
  | Some e =>
      (files, print ("Error writing CSV file: " +:+ e);; sys_exit 1)
  | None =>
      let '(text, r) := csv_text data sma_list pct in
      (<[out_path := text]> files,
       lift r;;
       print ("Data successfully written to " +:+ out_path))
  end.

(** ** Vocabulary of the specification *)

(** The arithmetic mean of a list of numbers (of a non-empty list: the
    quotient by zero is zero in [Qc]). *)
Definition mean (l : list Qc) : Qc :=
  (foldr Qcplus (Q2Qc 0) l / of_int (len l))%Qc.

(** The close prices at positions [a] through [b] inclusive. *)
Definition closes_between (data : list Candle) (a b : Z) : list Qc :=
  close <$> take (Z.to_nat (b - a + 1)) (drop (Z.to_nat a) data).

(** A candle with the given close price, every other field zero. *)
Definition candle_at (c : Z) : Candle :=
  {| timestamp := 0; open := of_int 0; high := of_int 0; low := of_int 0;
     close := of_int c; volume := of_int 0 |}.

(** A parser for the plain decimal strings the provider sends: an optional
    sign, digits, and an optional point among them.  It is the instance of
    [float] on a [str] used in the examples. *)
Definition digit_value (a : ascii) : option Z :=
  let n := N_of_ascii a in
  if (48 <=? n)%N && (n <=? 57)%N then Some (Z.of_N n - 48) else None.

Fixpoint unsigned_decimal (s : string) (seen_point : bool) (num : Z)
    (den : positive) (ndigits : nat) : option Q :=
  match s with
  | EmptyString =>
      match ndigits with
      | O => None
      | S _ => Some (num # den)
      end
  | String a s' =>
      if Ascii.eqb a "." then
        if seen_point then None
        else unsigned_decimal s' true num den ndigits
      else
        match digit_value a with
        | Some d =>
            unsigned_decimal s' seen_point (10 * num + d)
              (if seen_point then 10 * den else den)%positive (S ndigits)
        | None => None
        end
  end.

Definition decimal_of_str (s : string) : result Qc :=
  let parsed :=
    match s with
    | String a s' =>
        if Ascii.eqb a "-" then Qopp <$> unsigned_decimal s' false 0 1 0
        else if Ascii.eqb a "+" then unsigned_decimal s' false 0 1 0
        else unsigned_decimal s false 0 1 0
    | EmptyString => None
    end in
  match parsed with
  | Some q => Ok (Q2Qc q)
  | None => Raise ValueError
  end.

(** A raw candle record as the provider sends it, opening at [ms]
    milliseconds with close price [c]: twelve fields. *)
Definition kline_at (ms : Z) (c : string) : list json :=
  [ JInt ms; JStr "50000.10"; JStr "50010.00"; JStr "49990.5"; JStr c;
    JStr "12.5"; JInt (ms + 59999); JStr "625000.0"; JInt 42; JStr "6.1";
    JStr "305000.0"; JStr "0" ]%string.

(** The candle that [kline_at 1700000061999 "50005.25"] decodes to. *)
Definition sample_kline : list json := kline_at 1700000061999 "50005.25".
Definition sample_candle : Candle :=
  {| timestamp := 1700000061;
     open := Q2Qc (5000010 # 100); high := Q2Qc (5001000 # 100);
     low := Q2Qc (499905 # 10); close := Q2Qc (5000525 # 100);
     volume := Q2Qc (125 # 10) |}.

(** *** The shape of the written fields *)

Definition is_digit (a : ascii) : bool :=
  let n := N_of_ascii a in (48 <=? n)%N && (n <=? 57)%N.

Fixpoint string_forall (p : ascii → bool) (s : string) : bool :=
  match s with
  | EmptyString => true
  | String a s' => p a && string_forall p s'
  end.

(** The characters of a written number: digits, the sign and the point. *)
Definition number_char (a : ascii) : bool :=
  is_digit a || Ascii.eqb a "-" || Ascii.eqb a ".".

(** One digit or more, and nothing else. *)
Definition is_digits (s : string) : bool :=
  match s with
  | EmptyString => false
  | String _ _ => string_forall is_digit s
  end.

(** The text after an optional minus sign. *)
Definition strip_sign (s : string) : string :=
  match s with
  | String a s' => if Ascii.eqb a "-" then s' else s
  | EmptyString => EmptyString
  end.

(** A plain integer: an optional minus sign and digits. *)
Definition is_plain_int (s : string) : bool := is_digits (strip_sign s).

(** A point followed by exactly two digits, and the end of the text. *)
Definition is_fraction2 (s : string) : bool :=
  match s with
  | String p (String d1 (String d2 EmptyString)) =>
      Ascii.eqb p "." && is_digit d1 && is_digit d2
  | _ => false
  end.

(** One digit or more, then a point and exactly two digits. *)
Fixpoint digits_then_fraction2 (s : string) : bool :=
  match s with
  | EmptyString => false
  | String a s' => is_digit a && (is_fraction2 s' || digits_then_fraction2 s')
  end.

(** Fixed-point notation with exactly two digits after the point. *)
Definition is_fixed2 (s : string) : bool :=
  digits_then_fraction2 (strip_sign s).

(** *** The lines of a text *)

(** A character that does not end a line. *)
Definition line_char (a : ascii) : bool := negb (Ascii.eqb a LF).

(** Lines each ended by CR LF. *)
Definition unlines (ls : list string) : string :=
  foldr (λ l text, l +:+ CRLF +:+ text) "" ls.

(** [s] without one trailing CR. *)
Fixpoint chomp_cr (s : string) : string :=
  match s with
  | EmptyString => EmptyString
  | String a EmptyString => if Ascii.eqb a CR then EmptyString else s
  | String a s' => String a (chomp_cr s')
  end.

(** The lines of a text: each ends at a LF, a CR before it belonging to
    the line ending; [cur] is the line read so far. *)
Fixpoint lines_from (cur s : string) : list string :=
  match s with
  | EmptyString =>
      match cur with
      | EmptyString => []
      | _ => [cur]
      end
  | String a s' =>
      if Ascii.eqb a LF then chomp_cr cur :: lines_from "" s'
      else lines_from (cur +:+ String a "") s'
  end.

Definition splitlines (s : string) : list string := lines_from "" s.

(** *** The rows of the artifact *)

Definition header_line : string :=
  "timestamp,open,high,low,close,volume,sma_10,pct_change".

(** The eight fields of the row of one candle. *)
Definition row_fields (row : Candle) (sma_10 pct_change : string)
  : list string :=
  [ str_of_int (timestamp row);
    format_2f (open row); format_2f (high row); format_2f (low row);
    format_2f (close row); format_2f (volume row);
    sma_10; pct_change ].

(** The [sma_10] field of row [i]: empty past the end of the SMA sequence. *)
Definition sma_field (sma_list : list Qc) (i : nat) : string :=
  match sma_list !! i with
  | Some s => format_2f s
  | None => ""
  end.

Definition csv_rows (data : list Candle) (sma_list : list Qc) (pct : Qc)
  : list (list string) :=
  imap (λ i row, row_fields row (sma_field sma_list i) (format_2f pct)) data.

(** ** Entry point *)

Section Main.

Variable float_of_str : string → result Qc.

(** [main], from the parsed arguments on: [symbol] and [output] are the
    values of [--symbol] and [--output] when given; [reply] and [io_error]
    are what the provider and the destination answer; [files] is the file
    system before the run.  The argument parser's own exits, on [--help] or
    on a command line it refuses, come before this point and are not part
    of the embedding. *)
Definition main (symbol output : option string) (reply : http_reply)
    (io_error : option string) (files : gmap string string)
  : gmap string string * io unit :=
  let args_symbol := default "bitcoin"%string symbol in
  let args_output := default "crypto_indicators.csv"%string output in
  match
    (ohlcv_data ← fetch_ohlcv float_of_str args_symbol reply;
     print "Computing indicators...";;
     sma_values ← lift (compute_sma ohlcv_data 10);
     pct_change ← lift (compute_pct_change ohlcv_data);
     print ("10-minute SMA computed for " +:+ str_of_int (len sma_values)
            +:+ " data points");;
     print ("Overall percentage change: " +:+ format_2f pct_change +:+ "%");;
     mret (ohlcv_data, sma_values, pct_change))
  with
  | (out, Return (ohlcv_data, sma_values, pct_change)) =>
      let '(files', written) :=
        write_csv ohlcv_data sma_values pct_change args_output io_error files in
      (files',
       (out, Return tt);;
       written;;
       print ("Analysis complete! Results saved to " +:+ args_output))
  | (out, Exit code) => (files, (out, Exit code))
  | (out, Uncaught e) => (files, (out, Uncaught e))
  end.

End Main.

(** ** Further vocabulary *)

(** The fields of a line, cut at each comma; [cur] is the field read so
    far. *)
Fixpoint fields_from (cur s : string) : list string :=
  match s with
  | EmptyString => [cur]
  | String a s' =>
      if Ascii.eqb a "," then cur :: fields_from "" s'
      else fields_from (cur +:+ String a "") s'
  end.

Definition split_commas (s : string) : list string := fields_from "" s.

(** A character that is not the delimiter. *)
Definition field_char (a : ascii) : bool := negb (Ascii.eqb a ",").
(** * The numeric code in binary64

    The indicator engine and the decoder once more, with a Python [float]
    as the binary64 value it is.  Floats are the Standard Library's
    [spec_float]; sums, differences, products and quotients of floats are
    its IEEE 754 operations at precision [prec] = 53 and [emax] = 1024. *)

Module B64.

Definition float : Type := spec_float.

Definition fadd : float → float → float := SFadd prec emax.
Definition fsub : float → float → float := SFsub prec emax.
Definition fmul : float → float → float := SFmul prec emax.
Definition fdiv : float → float → float := SFdiv prec emax.

Definition pos_zero : float := S754_zero false.

(** [x == 0] on a float: true of both zeros, false of NaN. *)
Definition is_zero (x : float) : bool := SFeqb x pos_zero.

(** The integer nearest to [n / d], for [0 < d], ties to the even one. *)
Definition div_half_even (n d : Z) : Z :=
  let q := n / d in
  match 2 * (n mod d) ?= d with
  | Lt => q
  | Gt => q + 1
  | Eq => if Z.even q then q else q + 1
  end.

(** [floor (log2 (a / b))], for [0 < a] and [0 < b]. *)
Definition log2_quot (a b : Z) : Z :=
  let d := Z.log2 a - Z.log2 b in
  if b * 2 ^ Z.log2 a <=? a * 2 ^ Z.log2 b then d else d - 1.

(** The float nearest to [a / b], for [0 < a] and [0 < b], with sign [s]:
    the correctly rounded quotient, ties to even; an infinity when it lies
    beyond the largest float, a zero when it rounds to none. *)
Definition nearest_quot (s : bool) (a b : Z) : float :=
  let e := Z.max (log2_quot a b - 52) (-1074) in
  let m := div_half_even (a * 2 ^ Z.max (- e) 0) (b * 2 ^ Z.max e 0) in
  let '(m, e) := if m =? 2 ^ 53 then (2 ^ 52, e + 1) else (m, e) in
  match m with
  | Zpos p => if e <=? 971 then S754_finite s p e else S754_infinity s
  | _ => S754_zero s
  end.

(** The float nearest to an int. *)
Definition nearest_float (z : Z) : float :=
  if z =? 0 then pos_zero else nearest_quot (z <? 0) (Z.abs z) 1.

(** The conversion of an int operand to float: [OverflowError] when the
    int is too large. *)
Definition float_of_int (z : Z) : result float :=
  match nearest_float z with
  | S754_infinity _ => Raise OverflowError
  | x => Ok x
  end.

(** [a / b] on two ints: the correctly rounded quotient. *)
Definition int_truediv (a b : Z) : result float :=
  if b =? 0 then Raise ZeroDivisionError
  else if a =? 0 then Ok (S754_zero (b <? 0))
  else
    match nearest_quot (xorb (a <? 0) (b <? 0)) (Z.abs a) (Z.abs b) with
    | S754_infinity _ => Raise OverflowError
    | x => Ok x
    end.

(** [x / y] on two floats. *)
Definition float_truediv (x y : float) : result float :=
  if is_zero y then Raise ZeroDivisionError else Ok (fdiv x y).

(** [int(x)] on a float: truncation toward zero. *)
Definition py_int (x : float) : result Z :=
  match x with
  | S754_zero _ => Ok 0
  | S754_finite s m e =>
      Ok (cond_Zopp s (if 0 <=? e then Zpos m * 2 ^ e
                       else Zpos m / 2 ^ (- e)))
  | S754_infinity _ => Raise OverflowError
  | S754_nan => Raise ValueError
  end.

(** A number: an [int] or a [float]. *)
Inductive number : Type :=
  | NInt (z : Z)
  | NFloat (x : float).

(** [sum(l)] on floats: additions from the left, starting at the int [0],
    which the first addition converts. *)
Definition py_sum (l : list float) : number :=
  match l with
  | [] => NInt 0
  | _ => NFloat (foldl fadd pos_zero l)
  end.

(** [n / w], for an int [w]. *)
Definition py_truediv (n : number) (w : Z) : result float :=
  match n with
  | NInt a => int_truediv a w
  | NFloat x => fw ← float_of_int w; float_truediv x fw
  end.

Record Candle : Type := mkCandle {
  timestamp : Z;
  open : float;
  high : float;
  low : float;
  close : float;
  volume : float
}.

(** ** [compute_sma] and [compute_pct_change] *)

Definition sma_step (data : list Candle) (window : Z)
    (sma_values : list float) (i : Z) : result (list float) :=
  if i <? window - 1 then
    row ← py_getitem data i;
    Ok (sma_values ++ [close row])
  else
    window_closes ←
      mapM (λ j, row ← py_getitem data j; Ok (close row))
           (py_range (i - window + 1) (i + 1));
    sma ← py_truediv (py_sum window_closes) window;
    Ok (sma_values ++ [sma]).

Definition compute_sma (data : list Candle) (window : Z)
  : result (list float) :=
  foldM (sma_step data window) [] (py_range 0 (len data)).

(** The int literal [100] as the float the product converts it to. *)
Definition hundred : float := nearest_float 100.

Definition compute_pct_change (data : list Candle) : result float :=
  if len data <? 2 then Ok pos_zero
  else
    first ← py_getitem data 0;
    last ← py_getitem data (-1);
    let first_close := close first in
    let last_close := close last in
    if is_zero first_close then Ok pos_zero
    else
      d ← float_truediv (fsub last_close first_close) first_close;
      Ok (fmul d hundred).

(** ** The decoder *)

Inductive json : Type :=
  | JNull
  | JBool (b : bool)
  | JInt (z : Z)
  | JFloat (x : float)
  | JStr (s : string).

Definition int_of_bool (b : bool) : Z := if b then 1 else 0.

(** [v / 1000] *)
Definition div_1000 (v : json) : result float :=
  match v with
  | JInt z => int_truediv z 1000
  | JBool b => int_truediv (int_of_bool b) 1000
  | JFloat x => py_truediv (NFloat x) 1000
  | JStr _ | JNull => Raise TypeError
  end.

Section Decoder.

Variable float_of_str : string → result float.

(** [float(v)] *)
Definition py_float (v : json) : result float :=
  match v with
  | JStr s => float_of_str s
  | JInt z => float_of_int z
  | JFloat x => Ok x
  | JBool b => float_of_int (int_of_bool b)
  | JNull => Raise TypeError
  end.

(** The dict built for one [kline]. *)
Definition decode_kline (kline : list json) : result Candle :=
  k0 ← py_getitem kline 0;
  secs ← div_1000 k0;
  ts ← py_int secs;
  k1 ← py_getitem kline 1; o ← py_float k1;
  k2 ← py_getitem kline 2; h ← py_float k2;
  k3 ← py_getitem kline 3; l ← py_float k3;
  k4 ← py_getitem kline 4; c ← py_float k4;
  k5 ← py_getitem kline 5; v ← py_float k5;
  Ok {| timestamp := ts;
        open := o; high := h; low := l; close := c; volume := v |}.

(** The conversion loop [for kline in data: ohlcv_data.append(...)]. *)
Definition convert_klines (data : list (list json)) : result (list Candle) :=
  foldM (λ ohlcv_data kline,
           row ← decode_kline kline; Ok (ohlcv_data ++ [row])) [] data.

End Decoder.

(** ** Vocabulary of the statements *)

(** The rational a float stands for; none for an infinity or NaN. *)
Definition exact_value (x : float) : option Q :=
  match x with
  | S754_zero _ => Some 0%Q
  | S754_finite s m e =>
      let v := if 0 <=? e then inject_Z (Zpos m * 2 ^ e)
               else Zpos m # Z.to_pos (2 ^ (- e)) in
      Some (if s then Qopp v else v)
  | _ => None
  end.

(** The binary64 mean the engine computes of a window: the sum from the
    left, divided by the float of the count. *)
Definition mean (l : list float) : float :=
  fdiv (foldl fadd pos_zero l) (nearest_float (len l)).


(** The close prices at positions [a] through [b] inclusive. *)
Definition closes_between (data : list Candle) (a b : Z) : list float :=
  close <$> take (Z.to_nat (b - a + 1)) (drop (Z.to_nat a) data).

(** A candle with the given close price, every other field zero. *)
Definition candle_at (c : float) : Candle :=
  {| timestamp := 0; open := pos_zero; high := pos_zero; low := pos_zero;
     close := c; volume := pos_zero |}.

(** The float a decimal string denotes: the one nearest to the decimal. *)
Definition float_of_decimal (s : string) : result float :=
  let parse (neg : bool) (t : string) : result float :=
    match unsigned_decimal t false 0 1 0 with
    | Some (num # den) =>
        if num =? 0 then Ok (S754_zero neg)
        else
          match nearest_quot neg num (Zpos den) with
          | S754_infinity _ => Raise OverflowError
          | x => Ok x
          end
    | None => Raise ValueError
    end in
  match s with
  | String a s' =>
      if Ascii.eqb a "-" then parse true s'
      else if Ascii.eqb a "+" then parse false s'
      else parse false s
  | EmptyString => Raise ValueError
  end.

(** The float a decimal literal denotes. *)
Definition literal (s : string) : float :=
  match float_of_decimal s with
  | Ok x => x
  | Raise _ => S754_nan
  end.

(** Nine closes of 2.5 and a tenth of 4.25. *)
Definition late_rise : list Candle :=
  candle_at <$> replicate 9 (literal "2.5") ++ [literal "4.25"].

(** A raw candle record opening at [ms] milliseconds with close price [c];
    twelve fields, as the provider sends them. *)
Definition kline_at (ms : Z) (c : string) : list json :=
  [ JInt ms; JStr "50000.10"; JStr "50010.00"; JStr "49990.5"; JStr c;
    JStr "12.5"; JInt (ms + 59999); JStr "625000.0"; JInt 42; JStr "6.1";
    JStr "305000.0"; JStr "0" ]%string.

End B64.

(** * Properties *)

(** ** The result monad and the list primitives *)

Section result_lemmas.
Context {A B : Type}.

Lemma foldM_snoc (f : list B → A → result (list B)) (g : A → B)
    (l : list A) (acc : list B) :
  (∀ x acc', x ∈ l → f acc' x = Ok (acc' ++ [g x])) →
  foldM f acc l = Ok (acc ++ (g <$> l)).
Proof.
  revert acc. induction l as [|x l IH]; intros acc Hf; simpl.
  - by rewrite app_nil_r.
  - rewrite Hf by left. simpl.
    rewrite IH by (intros; apply Hf; by right).
    by rewrite <- app_assoc.
Qed.

Lemma mapM_Ok (f : A → result B) (g : A → B) (l : list A) :
  (∀ x, x ∈ l → f x = Ok (g x)) → mapM f l = Ok (g <$> l).
Proof.
  induction l as [|x l IH]; intros Hf; [done|].
  change (mapM f (x :: l)) with (y ← f x; k ← mapM f l; mret (y :: k)).
  rewrite Hf by left. simpl.
  by rewrite IH by (intros; apply Hf; by right).
Qed.

Lemma foldM_snoc_inv (f : list B → A → result (list B)) (d : A → result B)
    (l : list A) (acc out : list B) :
  (∀ x acc', f acc' x = y ← d x; Ok (acc' ++ [y])) →
  foldM f acc l = Ok out ↔
  ∃ ys, out = acc ++ ys ∧ Forall2 (λ x y, d x = Ok y) l ys.
Proof.
  intros Hf. revert acc. induction l as [|x l IH]; intros acc; simpl.
  - split.
    + intros [= <-]. exists []. by rewrite app_nil_r.
    + intros (ys & -> & Hys). inversion Hys. by rewrite app_nil_r.
  - rewrite Hf. destruct (d x) as [y|e] eqn:Hd; simpl.
    + rewrite IH. split.
      * intros (ys & -> & Hys). exists (y :: ys).
        rewrite <- app_assoc. split; [done|]. by constructor.
      * intros (ys & -> & Hys). inversion Hys as [|? y' ? ys' Hy]; subst.
        assert (y' = y) as -> by congruence.
        exists ys'. by rewrite <- app_assoc.
    + split; [done|]. intros (ys & _ & Hys).
      inversion Hys; congruence.
Qed.
End result_lemmas.

Lemma py_getitem_lookup {A : Type} (l : list A) (i : nat) (x : A) :
  l !! i = Some x → py_getitem l (Z.of_nat i) = Ok x.
Proof.
  intros Hi. pose proof (lookup_lt_Some _ _ _ Hi) as Hlt.
  unfold py_getitem, len. cbv zeta.
  rewrite !(proj2 (Z.ltb_ge (Z.of_nat i) 0)), (proj2 (Z.leb_gt _ _)) by lia.
  simpl. by rewrite Nat2Z.id, Hi.
Qed.

Lemma py_getitem_last {A : Type} (l : list A) (x : A) :
  last l = Some x → py_getitem l (-1) = Ok x.
Proof.
  intros Hl. rewrite last_lookup in Hl.
  pose proof (lookup_lt_Some _ _ _ Hl) as Hlt.
  unfold py_getitem, len. cbv zeta. change (-1 <? 0) with true. cbv iota.
  rewrite (proj2 (Z.ltb_ge _ _)), (proj2 (Z.leb_gt _ _)) by lia.
  simpl. replace (Z.to_nat (-1 + Z.of_nat (length l))) with (pred (length l))
    by lia.
  by rewrite Hl.
Qed.

Lemma py_range_nat (n : nat) : py_range 0 (Z.of_nat n) = Z.of_nat <$> seq 0 n.
Proof.
  unfold py_range. rewrite Z.sub_0_r, Nat2Z.id.
  apply list_fmap_ext. intros; lia.
Qed.

Lemma py_range_shift (a : nat) (k : nat) :
  py_range (Z.of_nat a) (Z.of_nat a + Z.of_nat k) = Z.of_nat <$> seq a k.
Proof.
  unfold py_range.
  replace (Z.to_nat (Z.of_nat a + Z.of_nat k - Z.of_nat a)) with k by lia.
  replace (seq a k) with (Nat.add a <$> seq 0 k)
    by (rewrite fmap_add_seq; f_equal; lia).
  rewrite <- list_fmap_compose.
  apply list_fmap_ext. intros; simpl; lia.
Qed.

(** ** Numbers *)

Lemma Qc_eq_bool_true (x y : Qc) : Qc_eq_bool x y = true ↔ x = y.
Proof.
  split; [apply Qc_eq_bool_correct|].
  intros ->. unfold Qc_eq_bool. by destruct (Qcanon.Qc_eq_dec y y).
Qed.

Lemma Qc_eq_bool_false (x y : Qc) : Qc_eq_bool x y = false ↔ x ≠ y.
Proof.
  rewrite <- Qc_eq_bool_true. by destruct (Qc_eq_bool x y).
Qed.

Lemma of_int_inj (a b : Z) : of_int a = of_int b ↔ a = b.
Proof.
  unfold of_int. rewrite Q2Qc_eq_iff. unfold Qeq; simpl. lia.
Qed.

Lemma py_truediv_Ok (x y : Qc) : y ≠ Q2Qc 0 → py_truediv x y = Ok (x / y)%Qc.
Proof.
  intros Hy. unfold py_truediv.
  by apply Qc_eq_bool_false in Hy as ->.
Qed.

Lemma foldl_Qcplus (l : list Qc) (a : Qc) :
  foldl Qcplus a l = (a + foldr Qcplus (Q2Qc 0) l)%Qc.
Proof.
  revert a. induction l as [|x l IH]; intros a; simpl.
  - by rewrite Qcplus_0_r.
  - by rewrite IH, Qcplus_assoc.
Qed.

Lemma py_sum_foldr (l : list Qc) : py_sum l = foldr Qcplus (Q2Qc 0) l.
Proof. unfold py_sum. by rewrite foldl_Qcplus, Qcplus_0_l. Qed.

(** ** Indicator engine *)

Lemma window_closes_Ok (data : list Candle) (a k : nat) :
  (a + k ≤ length data)%nat →
  mapM (λ j, row ← py_getitem data j; Ok (close row))
       (py_range (Z.of_nat a) (Z.of_nat a + Z.of_nat k))
  = Ok (close <$> take k (drop a data)).
Proof.
  intros Hk. rewrite py_range_shift.
  set (g := λ j : Z, default (Q2Qc 0) (close <$> data !! Z.to_nat j)).
  rewrite (mapM_Ok _ g).
  - f_equal. rewrite <- list_fmap_compose.
    apply list_eq. intros i. rewrite !list_lookup_fmap.
    destruct (decide (i < k)%nat) as [Hi|Hi].
    + rewrite lookup_seq_lt by done. rewrite lookup_take_lt by done.
      rewrite lookup_drop. simpl. unfold g. rewrite Nat2Z.id.
      destruct (lookup_lt_is_Some_2 data (a + i)) as [c Hc]; [lia|].
      by rewrite Hc.
    + rewrite lookup_seq_ge by lia. by rewrite lookup_take_ge by lia.
  - intros j Hj. apply list_elem_of_fmap in Hj as (i & -> & Hi).
    apply elem_of_seq in Hi.
    destruct (lookup_lt_is_Some_2 data i) as [c Hc]; [lia|].
    rewrite (py_getitem_lookup _ _ _ Hc). simpl.
    unfold g. by rewrite Nat2Z.id, Hc.
Qed.

(** What the loop of [compute_sma] appends at position [i]. *)
Lemma sma_step_Ok (data : list Candle) (w : Z) (i : nat) (c : Candle)
    (acc : list Qc) :
  1 ≤ w → data !! i = Some c →
  sma_step data w acc (Z.of_nat i)
  = Ok (acc ++ [if Z.of_nat i <? w - 1 then close c
                else mean (closes_between data (Z.of_nat i - w + 1)
                                               (Z.of_nat i))]).
Proof.
  intros Hw Hc. pose proof (lookup_lt_Some _ _ _ Hc) as Hlt.
  unfold sma_step. destruct (Z.ltb_spec (Z.of_nat i) (w - 1)) as [Hi|Hi].
  - by rewrite (py_getitem_lookup _ _ _ Hc).
  - pose proof (window_closes_Ok data (Z.to_nat (Z.of_nat i - w + 1))
                  (Z.to_nat w)) as Hwin.
    rewrite !Z2Nat.id in Hwin by lia.
    replace (Z.of_nat i - w + 1 + w) with (Z.of_nat i + 1) in Hwin by lia.
    rewrite Hwin by lia. simpl.
    rewrite py_truediv_Ok by (change (Q2Qc 0) with (of_int 0);
                              rewrite of_int_inj; lia).
    simpl. do 3 f_equal. unfold mean, closes_between.
    replace (Z.of_nat i - (Z.of_nat i - w + 1) + 1) with w by lia.
    rewrite py_sum_foldr. do 2 f_equal. unfold len.
    rewrite length_fmap, length_take, length_drop. lia.
Qed.

Lemma compute_sma_Ok (data : list Candle) (w : Z) :
  1 ≤ w →
  compute_sma data w
  = Ok ((λ i : nat,
           if Z.of_nat i <? w - 1
           then default (Q2Qc 0) (close <$> data !! i)
           else mean (closes_between data (Z.of_nat i - w + 1) (Z.of_nat i)))
        <$> seq 0 (length data)).
Proof.
  intros Hw. unfold compute_sma, len. rewrite py_range_nat.
  set (g := λ i : nat, if Z.of_nat i <? w - 1
                       then default (Q2Qc 0) (close <$> data !! i)
                       else mean (closes_between data (Z.of_nat i - w + 1)
                                                      (Z.of_nat i))).
  rewrite (foldM_snoc _ (g ∘ Z.to_nat)); simpl.
  - f_equal. rewrite <- list_fmap_compose. apply list_fmap_ext.
    intros i x _. simpl. by rewrite Nat2Z.id.
  - intros j acc Hj. apply list_elem_of_fmap in Hj as (i & -> & Hi).
    apply elem_of_seq in Hi.
    destruct (lookup_lt_is_Some_2 data i) as [c Hc]; [lia|].
    rewrite (sma_step_Ok _ _ _ c) by done.
    unfold g. by rewrite Nat2Z.id, Hc.
Qed.

(** The window [2, 3, 4] of closes 1..6 averages to 3. *)
Example compute_sma_example :
  fmap (M := result) (fmap (M := list) this)
       (compute_sma (candle_at <$> [1; 2; 3; 4; 5; 6]) 3)
  = Ok (inject_Z <$> [1; 2; 2; 3; 4; 5]).
Proof. vm_compute. reflexivity. Qed.

(** The model does raise when the window is not positive. *)
Example compute_sma_window_zero :
  compute_sma [candle_at 7] 0 = Raise ZeroDivisionError.
Proof. reflexivity. Qed.

Lemma compute_pct_change_short (data : list Candle) :
  (length data < 2)%nat → compute_pct_change data = Ok (Q2Qc 0).
Proof.
  intros Hn. unfold compute_pct_change, len.
  by rewrite (proj2 (Z.ltb_lt _ _)) by lia.
Qed.

(** The value of [compute_pct_change] on a series of two candles or more,
    from its first and last candle. *)
Lemma compute_pct_change_ends (data : list Candle) (first last_ : Candle) :
  (2 ≤ length data)%nat → head data = Some first → last data = Some last_ →
  compute_pct_change data
  = Ok (if Qc_eq_bool (close first) (Q2Qc 0) then Q2Qc 0
        else ((close last_ - close first) / close first * of_int 100)%Qc).
Proof.
  intros Hn Hf Hl. unfold compute_pct_change, len.
  rewrite (proj2 (Z.ltb_ge _ _)) by lia.
  rewrite head_lookup in Hf.
  pose proof (py_getitem_lookup data 0 first Hf) as H0.
  change (Z.of_nat 0) with 0 in H0. rewrite H0. simpl.
  rewrite (py_getitem_last data last_ Hl). simpl.
  destruct (Qc_eq_bool (close first) (Q2Qc 0)) eqn:Hz; [done|].
  apply Qc_eq_bool_false in Hz. by rewrite py_truediv_Ok.
Qed.

(** C9: [compute_sma] (for a window [w >= 1]) and [compute_pct_change]
    return a value on every series, the empty one included: no index is
    out of range and no divisor is zero. *)
Theorem indicators_total (data : list Candle) (w : Z) :
  1 ≤ w →
  (∃ sma : list Qc, compute_sma data w = Ok sma) ∧
  (∃ pct : Qc, compute_pct_change data = Ok pct).
Proof.
  intros Hw. split.
  - eexists. by apply compute_sma_Ok.
  - destruct (decide (length data < 2)%nat) as [Hn|Hn].
    { eexists. by apply compute_pct_change_short. }
    destruct data as [|first data']; [simpl in Hn; lia|].
    destruct (last (first :: data')) as [last_|] eqn:Hl.
    2:{ by apply last_None in Hl. }
    eexists. apply (compute_pct_change_ends _ first last_); [lia|done..].
Qed.

Lemma indicators_total_witness :
  1 ≤ 3 ∧
  (∃ sma : list Qc,
     compute_sma (candle_at <$> [100; 104; 101; 107; 110; 108]) 3 = Ok sma) ∧
  (∃ pct : Qc,
     compute_pct_change (candle_at <$> [100; 104; 101; 107; 110; 108])
     = Ok pct).
Proof.
  split; [lia|].
  apply (indicators_total (candle_at <$> [100; 104; 101; 107; 110; 108]) 3).
  lia.
Defined.

(** C10: on two series of length at least 2 whose first closes are equal
    and whose last closes are equal, [compute_pct_change] returns the same
    value, whatever their lengths, interior candles and other fields. *)
Theorem compute_pct_change_ends_only
    (data1 data2 : list Candle) (first1 last1 first2 last2 : Candle) :
  (2 ≤ length data1)%nat → (2 ≤ length data2)%nat →
  head data1 = Some first1 → last data1 = Some last1 →
  head data2 = Some first2 → last data2 = Some last2 →
  close first1 = close first2 → close last1 = close last2 →
  compute_pct_change data1 = compute_pct_change data2.
Proof.
  intros Hn1 Hn2 Hf1 Hl1 Hf2 Hl2 Hf Hl.
  rewrite (compute_pct_change_ends data1 first1 last1) by done.
  rewrite (compute_pct_change_ends data2 first2 last2) by done.
  by rewrite Hf, Hl.
Qed.

Lemma compute_pct_change_ends_only_witness :
  compute_pct_change
    [candle_at 100; candle_at 150]
  = compute_pct_change
      [ {| timestamp := 60; open := of_int 1; high := of_int 2;
           low := of_int 3; close := of_int 100; volume := of_int 4 |};
        candle_at 7; candle_at 0; candle_at 150 ].
Proof.
  apply (compute_pct_change_ends_only
           [candle_at 100; candle_at 150] _
           (candle_at 100) (candle_at 150)
           {| timestamp := 60; open := of_int 1; high := of_int 2;
              low := of_int 3; close := of_int 100; volume := of_int 4 |}
           (candle_at 150));
    (reflexivity || (simpl; lia)).
Defined.

(** ** Symbol resolver *)

Lemma symbol_map_lookup (k v : string) :
  symbol_map !! k = Some v → (k, v) ∈ symbol_entries.
Proof. apply elem_of_list_to_map_2. Qed.

(** Every mapped pair already carries the quote-currency suffix. *)
Lemma symbol_map_suffix (k v : string) :
  symbol_map !! k = Some v → endswith v "USDT" = true.
Proof.
  intros H%symbol_map_lookup. unfold symbol_entries in H.
  repeat (apply elem_of_cons in H as [[= -> ->]|H]; [reflexivity|]).
  by apply elem_of_nil in H.
Qed.

Lemma symbol_map_size : size symbol_map = 8%nat.
Proof. reflexivity. Qed.

(** C4: the symbol mapping has eight entries; when the lower-cased input
    is one of its keys, the resolver returns the mapped trading pair
    verbatim, whatever the suffix logic would do; resolving [bitcoin] gives
    [BTCUSDT]. *)
Theorem resolve_mapped :
  size symbol_map = 8%nat ∧
  (∀ symbol pair : string,
     symbol_map !! lower symbol = Some pair → resolve symbol = pair) ∧
  resolve "bitcoin" = "BTCUSDT"%string.
Proof.
  split; [apply symbol_map_size|]. split; [|reflexivity].
  intros symbol pair Hk. unfold resolve. rewrite Hk. simpl.
  by rewrite (symbol_map_suffix _ _ Hk).
Qed.

Lemma resolve_mapped_witness :
  resolve "EtHeReum" = "ETHUSDT"%string ∧
  resolve "bitcoin" = "BTCUSDT"%string.
Proof.
  split.
  - apply (proj1 (proj2 resolve_mapped)). reflexivity.
  - apply (proj2 (proj2 resolve_mapped)).
Defined.

(** C5: when the lower-cased input is not a key of the symbol mapping, the
    resolver returns the upper-cased input, as it is when it ends with
    [USDT] and with [USDT] appended otherwise; [XRP] gives [XRPUSDT] and
    [ethusdt] gives [ETHUSDT]. *)
Theorem resolve_unmapped :
  (∀ symbol : string,
     symbol_map !! lower symbol = None →
     resolve symbol
     = if endswith (upper symbol) "USDT" then upper symbol
       else upper symbol +:+ "USDT") ∧
  resolve "XRP" = "XRPUSDT"%string ∧
  resolve "ethusdt" = "ETHUSDT"%string.
Proof.
  split; [|split; reflexivity].
  intros symbol Hk. unfold resolve. rewrite Hk. simpl.
  rewrite ?andb_false_r. by destruct (endswith (upper symbol) "USDT").
Qed.

Lemma resolve_unmapped_witness :
  resolve "Ada" = "ADAUSDT"%string ∧
  resolve "solUSDT" = "SOLUSDT"%string ∧
  resolve "XRP" = "XRPUSDT"%string ∧
  resolve "ethusdt" = "ETHUSDT"%string.
Proof.
  split_and!.
  - apply (proj1 resolve_unmapped "Ada"). reflexivity.
  - apply (proj1 resolve_unmapped "solUSDT"). reflexivity.
  - apply (proj1 (proj2 resolve_unmapped)).
  - apply (proj2 (proj2 resolve_unmapped)).
Defined.

(** ** Market data fetcher *)

Section Fetcher_properties.

Variable float_of_str : string → result Qc.

Lemma convert_klines_Forall2 (data : list (list json)) (candles : list Candle) :
  convert_klines float_of_str data = Ok candles ↔
  Forall2 (λ kline row, decode_kline float_of_str kline = Ok row) data candles.
Proof.
  unfold convert_klines.
  rewrite (foldM_snoc_inv _ (decode_kline float_of_str)) by done.
  split.
  - by intros (ys & -> & Hys).
  - intros Hys. by exists candles.
Qed.

(** C3: what the fetch stage does is decided by the number of candles in
    the response: none is the fatal no-data error (exit code 1); 1 to 9 is
    the fatal insufficient-data error (exit code 1); 10 to 59 prints a
    warning and goes on to return the series; 60 goes on without any
    warning. *)
Theorem fetch_ohlcv_policy (symbol : string) (data : list (list json)) :
  let fetching := "Fetching data for " +:+ resolve symbol +:+ "..." in
  let warning := "Warning: Only " +:+ str_of_int (len data)
                 +:+ " minutes of data available (expected 60)" in
  let fetched (candles : list Candle) :=
    "Successfully fetched " +:+ str_of_int (len candles)
    +:+ " minutes of OHLCV data" in
  (len data = 0 →
   fetch_ohlcv float_of_str symbol (JsonBody data)
   = ([fetching; "Error: No data found for " +:+ resolve symbol], Exit 1)) ∧
  (1 ≤ len data < 10 →
   fetch_ohlcv float_of_str symbol (JsonBody data)
   = ([fetching; warning;
       "Error: Insufficient data for analysis (need at least 10 minutes)"],
      Exit 1)) ∧
  (∀ candles : list Candle,
     10 ≤ len data < 60 → convert_klines float_of_str data = Ok candles →
     fetch_ohlcv float_of_str symbol (JsonBody data)
     = ([fetching; warning; fetched candles], Return candles)) ∧
  (∀ candles : list Candle,
     60 ≤ len data → convert_klines float_of_str data = Ok candles →
     fetch_ohlcv float_of_str symbol (JsonBody data)
     = ([fetching; fetched candles], Return candles)).
Proof.
  intros fetching warning fetched. subst fetching warning fetched.
  destruct data as [|kline data'].
  { split_and!; try (unfold len; simpl; intros; lia). done. }
  set (data := kline :: data') in *.
  assert (len data ≠ 0) as Hpos by (unfold data, len; simpl; lia).
  unfold fetch_ohlcv. fold data.
  cbv beta iota zeta delta [mbind io_bind print sys_exit mret io_ret lift data].
  fold data.
  split_and!.
  - done.
  - intros Hn. rewrite !(proj2 (Z.ltb_lt _ _)) by lia. reflexivity.
  - intros candles Hn Hc. rewrite Hc.
    rewrite (proj2 (Z.ltb_lt _ 60)), (proj2 (Z.ltb_ge _ 10)) by lia.
    reflexivity.
  - intros candles Hn Hc. rewrite Hc.
    rewrite (proj2 (Z.ltb_ge _ 60)) by lia. reflexivity.
Qed.

End Fetcher_properties.

Lemma convert_sample (n : nat) :
  convert_klines decimal_of_str (replicate n sample_kline)
  = Ok (replicate n sample_candle).
Proof.
  apply convert_klines_Forall2.
  induction n as [|n IH]; simpl; constructor; [|exact IH].
  vm_compute. reflexivity.
Qed.

Lemma fetch_ohlcv_policy_witness :
  fetch_ohlcv decimal_of_str "bitcoin" (JsonBody [])
  = (["Fetching data for BTCUSDT..."; "Error: No data found for BTCUSDT"],
     Exit 1) ∧
  fetch_ohlcv decimal_of_str "bitcoin" (JsonBody (replicate 5 sample_kline))
  = (["Fetching data for BTCUSDT...";
      "Warning: Only 5 minutes of data available (expected 60)";
      "Error: Insufficient data for analysis (need at least 10 minutes)"],
     Exit 1) ∧
  fetch_ohlcv decimal_of_str "bitcoin" (JsonBody (replicate 10 sample_kline))
  = (["Fetching data for BTCUSDT...";
      "Warning: Only 10 minutes of data available (expected 60)";
      "Successfully fetched 10 minutes of OHLCV data"],
     Return (replicate 10 sample_candle)) ∧
  fetch_ohlcv decimal_of_str "bitcoin" (JsonBody (replicate 60 sample_kline))
  = (["Fetching data for BTCUSDT...";
      "Successfully fetched 60 minutes of OHLCV data"],
     Return (replicate 60 sample_candle)).
Proof.
  split_and!.
  - apply (proj1 (fetch_ohlcv_policy decimal_of_str "bitcoin" [])).
    reflexivity.
  - apply (proj1 (proj2 (fetch_ohlcv_policy decimal_of_str "bitcoin"
                           (replicate 5 sample_kline)))).
    vm_compute. split; [discriminate|reflexivity].
  - apply (proj1 (proj2 (proj2 (fetch_ohlcv_policy decimal_of_str "bitcoin"
                                  (replicate 10 sample_kline))))
             (replicate 10 sample_candle)).
    + vm_compute. split; [discriminate|reflexivity].
    + apply convert_sample.
  - apply (proj2 (proj2 (proj2 (fetch_ohlcv_policy decimal_of_str "bitcoin"
                                  (replicate 60 sample_kline))))
             (replicate 60 sample_candle)).
    + vm_compute. discriminate.
    + apply convert_sample.
Defined.

(** ** Tabular writer *)

(** *** Strings *)

Lemma app_String (a : ascii) (s t : string) :
  String a s +:+ t = String a (s +:+ t).
Proof. reflexivity. Qed.

Lemma app_empty_l (t : string) : "" +:+ t = t.
Proof. reflexivity. Qed.

Lemma app_empty_r (s : string) : s +:+ "" = s.
Proof. induction s as [|a s IH]; [done|]. by rewrite app_String, IH. Qed.

Lemma str_app_assoc (s t u : string) : (s +:+ t) +:+ u = s +:+ (t +:+ u).
Proof.
  induction s as [|a s IH]; [done|]. by rewrite !app_String, IH.
Qed.

Lemma string_forall_app (p : ascii → bool) (s t : string) :
  string_forall p (s +:+ t) = string_forall p s && string_forall p t.
Proof.
  induction s as [|a s IH]; [done|].
  rewrite app_String. simpl. by rewrite IH, andb_assoc.
Qed.

Lemma string_forall_impl (p q : ascii → bool) (s : string) :
  (∀ a, p a = true → q a = true) →
  string_forall p s = true → string_forall q s = true.
Proof.
  intros Hpq. induction s as [|a s IH]; [done|]. simpl.
  intros [Ha Hs]%andb_true_iff. by rewrite (Hpq _ Ha), IH.
Qed.

Lemma number_char_plain (a : ascii) :
  number_char a = true → csv_special a = false ∧ Ascii.eqb a LF = false.
Proof.
  destruct a as [[] [] [] [] [] [] [] []]; vm_compute; intros; done.
Qed.

Lemma is_digit_number_char (a : ascii) :
  is_digit a = true → number_char a = true.
Proof. unfold number_char. by intros ->. Qed.

Lemma is_digit_not_sign (a : ascii) :
  is_digit a = true → Ascii.eqb a "-" = false.
Proof.
  destruct a as [[] [] [] [] [] [] [] []]; vm_compute; intros; done.
Qed.

(** A field free of special characters is written as it is. *)
Lemma csv_field_plain (s : string) :
  string_forall (λ a, negb (csv_special a)) s = true → csv_field s = s.
Proof.
  intros Hs. unfold csv_field.
  enough (string_exists csv_special s = false) as -> by done.
  induction s as [|a s IH]; [done|]. simpl in *.
  apply andb_true_iff in Hs as [Ha Hs].
  apply negb_true_iff in Ha. by rewrite Ha, IH.
Qed.

Lemma csv_field_number (s : string) :
  string_forall number_char s = true → csv_field s = s.
Proof.
  intros Hs. apply csv_field_plain.
  apply (string_forall_impl number_char); [|done].
  intros a Ha. by destruct (number_char_plain a Ha) as [-> _].
Qed.

(** *** Decimal digits *)

Lemma pretty_N_char_digit (n : N) : is_digit (pretty_N_char n) = true.
Proof. unfold pretty_N_char. by repeat case_match. Qed.

Lemma pretty_N_go_digits (x : N) (s : string) :
  string_forall is_digit s = true →
  string_forall is_digit (pretty_N_go x s) = true.
Proof.
  revert s. induction (N.lt_wf_0 x) as [x _ IH]; intros s Hs.
  destruct (decide (x = 0)%N) as [->|Hx]; [by rewrite pretty_N_go_0|].
  rewrite pretty_N_go_step by lia.
  apply IH; [apply N.div_lt; lia|].
  simpl. by rewrite pretty_N_char_digit, Hs.
Qed.

Lemma pretty_N_go_nonempty (x : N) (s : string) :
  s ≠ ""%string → pretty_N_go x s ≠ ""%string.
Proof.
  revert s. induction (N.lt_wf_0 x) as [x _ IH]; intros s Hs.
  destruct (decide (x = 0)%N) as [->|Hx]; [by rewrite pretty_N_go_0|].
  rewrite pretty_N_go_step by lia.
  apply IH; [apply N.div_lt; lia|done].
Qed.

Lemma pretty_N_is_digits (x : N) : is_digits (pretty x) = true.
Proof.
  unfold pretty, pretty_N. case_decide as Hx; [done|].
  rewrite pretty_N_go_step by lia.
  pose proof (pretty_N_go_nonempty (x `div` 10)
                (String (pretty_N_char (x `mod` 10)%N) "")) as Hne.
  pose proof (pretty_N_go_digits (x `div` 10)
                (String (pretty_N_char (x `mod` 10)%N) "")) as Hd.
  destruct (pretty_N_go _ _); [by destruct Hne|].
  apply Hd. simpl. by rewrite pretty_N_char_digit.
Qed.

Lemma is_digits_forall (s : string) :
  is_digits s = true → string_forall is_digit s = true.
Proof. by destruct s. Qed.

Lemma str_of_int_nonneg (z : Z) : 0 ≤ z → is_digits (str_of_int z) = true.
Proof.
  intros Hz. destruct z as [|p|p]; [done| |lia].
  apply (pretty_N_is_digits (Npos p)).
Qed.

Lemma str_of_int_plain (z : Z) : is_plain_int (str_of_int z) = true.
Proof.
  destruct z as [|p|p]; [done| |].
  - pose proof (str_of_int_nonneg (Zpos p)) as Hd.
    unfold is_plain_int, strip_sign.
    destruct (str_of_int (Z.pos p)) as [|a s]; [by apply Hd|].
    specialize (Hd ltac:(lia)).
    assert (is_digit a = true) as Ha by (simpl in Hd; by destruct (is_digit a)).
    by rewrite (is_digit_not_sign a Ha).
  - apply (pretty_N_is_digits (Npos p)).
Qed.

Lemma str_of_int_number (z : Z) :
  string_forall number_char (str_of_int z) = true.
Proof.
  destruct z as [|p|p]; [done| |].
  - apply (string_forall_impl is_digit); [apply is_digit_number_char|].
    apply is_digits_forall, (pretty_N_is_digits (Npos p)).
  - change (str_of_int (Z.neg p)) with (String "-" (pretty (Npos p))).
    simpl. apply (string_forall_impl is_digit); [apply is_digit_number_char|].
    apply is_digits_forall, pretty_N_is_digits.
Qed.

(** *** The [.2f] format *)

Lemma round_half_even_nonneg (q : Q) : (0 <= q)%Q → 0 ≤ round_half_even q.
Proof.
  intros Hq. unfold round_half_even.
  assert (0 ≤ Qfloor q) as Hf.
  { rewrite <- (Qfloor_Z 0). by apply Qfloor_resp_le. }
  destruct (Qcompare _ _); [destruct (Z.even _)| |]; lia.
Qed.

Lemma digits_then_fraction2_app (ip : string) (d1 d2 : ascii) :
  is_digits ip = true → is_digit d1 = true → is_digit d2 = true →
  digits_then_fraction2 (ip +:+ String "." (String d1 (String d2 ""))) = true.
Proof.
  intros Hip H1 H2. induction ip as [|a ip IH]; [done|].
  rewrite app_String. simpl in *.
  apply andb_true_iff in Hip as [-> Hip]. simpl.
  destruct ip as [|b ip].
  - rewrite app_empty_l. simpl. by rewrite H1, H2.
  - rewrite IH by done. apply orb_true_r.
Qed.

(** The shape of a field written with [.2f]. *)
Lemma fixed2_shape (sign ip : string) (d1 d2 : ascii) :
  sign = ""%string ∨ sign = "-"%string →
  is_digits ip = true → is_digit d1 = true → is_digit d2 = true →
  let s := sign +:+ ip +:+ String "." (String d1 (String d2 "")) in
  is_fixed2 s = true ∧ string_forall number_char s = true.
Proof.
  intros Hsign Hip H1 H2 s. subst s. split.
  - unfold is_fixed2.
    pose proof (digits_then_fraction2_app ip d1 d2 Hip H1 H2) as Hb.
    destruct Hsign as [-> | ->].
    + rewrite app_empty_l. destruct ip as [|a ip]; [done|].
      rewrite app_String in *. simpl in Hip.
      apply andb_true_iff in Hip as [Ha _].
      unfold strip_sign. by rewrite (is_digit_not_sign a Ha).
    + done.
  - rewrite !string_forall_app. apply andb_true_iff; split.
    { by destruct Hsign as [-> | ->]. }
    apply andb_true_iff; split.
    + apply (string_forall_impl is_digit); [apply is_digit_number_char|].
      by apply is_digits_forall.
    + simpl. by rewrite !is_digit_number_char.
Qed.

Lemma digit_char_digit (d : Z) : is_digit (digit_char d) = true.
Proof. apply pretty_N_char_digit. Qed.

Lemma format_2f_shape (x : Qc) :
  is_fixed2 (format_2f x) = true ∧
  string_forall number_char (format_2f x) = true.
Proof.
  unfold format_2f.
  set (n := round_half_even (Qabs x * inject_Z 100)).
  assert (0 ≤ n) as Hn.
  { apply round_half_even_nonneg, Qmult_le_0_compat; [apply Qabs_nonneg|done]. }
  apply fixed2_shape.
  - destruct (Qlt_le_dec x 0); auto.
  - apply str_of_int_nonneg. by apply Z.div_pos.
  - apply digit_char_digit.
  - apply digit_char_digit.
Qed.

Lemma csv_field_format_2f (x : Qc) : csv_field (format_2f x) = format_2f x.
Proof. apply csv_field_number, format_2f_shape. Qed.

Lemma csv_field_str_of_int (z : Z) : csv_field (str_of_int z) = str_of_int z.
Proof. apply csv_field_number, str_of_int_number. Qed.

(** *** Lines *)

Lemma chomp_cr_snoc (s : string) : chomp_cr (s +:+ String CR "") = s.
Proof.
  induction s as [|a s IH]; [done|].
  rewrite app_String. simpl. rewrite IH.
  by destruct s.
Qed.

Lemma lines_from_app (cur l rest : string) :
  string_forall line_char l = true →
  lines_from cur (l +:+ rest) = lines_from (cur +:+ l) rest.
Proof.
  revert cur. induction l as [|a l IH]; intros cur Hl.
  - by rewrite app_empty_l, app_empty_r.
  - simpl in Hl. apply andb_true_iff in Hl as [Ha Hl].
    apply negb_true_iff in Ha.
    rewrite app_String. simpl. rewrite Ha, IH by done.
    by rewrite str_app_assoc.
Qed.

Lemma lines_from_line (l rest : string) :
  string_forall line_char l = true →
  lines_from "" (l +:+ CRLF +:+ rest) = l :: lines_from "" rest.
Proof.
  intros Hl. rewrite lines_from_app by done.
  rewrite app_empty_l. unfold CRLF. rewrite !app_String, app_empty_l.
  simpl. change (Ascii.eqb CR LF) with false. change (Ascii.eqb LF LF) with true.
  cbv iota. by rewrite chomp_cr_snoc.
Qed.

Lemma splitlines_unlines (ls : list string) :
  Forall (λ l, string_forall line_char l = true) ls →
  splitlines (unlines ls) = ls.
Proof.
  unfold splitlines. induction 1 as [|l ls Hl _ IH]; [done|].
  simpl. by rewrite lines_from_line, IH.
Qed.

Lemma join_forall (p : ascii → bool) (fields : list string) :
  p ","%char = true →
  Forall (λ f, string_forall p f = true) fields →
  string_forall p (join "," fields) = true.
Proof.
  intros Hp. induction 1 as [|f fields Hf Hfs IH]; [done|].
  destruct fields as [|g fields]; [done|].
  change (join "," (f :: g :: fields))
    with (f +:+ "," +:+ join "," (g :: fields)).
  rewrite !string_forall_app, Hf, IH. simpl. by rewrite Hp.
Qed.

Lemma number_line_char (s : string) :
  string_forall number_char s = true → string_forall line_char s = true.
Proof.
  apply string_forall_impl. intros a Ha. unfold line_char.
  by destruct (number_char_plain a Ha) as [_ ->].
Qed.

(** *** Rows *)

Lemma sma_field_plain (sma_list : list Qc) (i : nat) :
  csv_field (sma_field sma_list i) = sma_field sma_list i ∧
  string_forall line_char (sma_field sma_list i) = true.
Proof.
  unfold sma_field. destruct (sma_list !! i) as [s|]; [|done].
  split; [apply csv_field_format_2f|].
  apply number_line_char, format_2f_shape.
Qed.

Lemma output_row_Ok (i : nat) (row : Candle) (sma_list : list Qc) (pct : Qc) :
  output_row (Z.of_nat i) row sma_list pct
  = Ok [ CInt (timestamp row);
         CStr (format_2f (open row)); CStr (format_2f (high row));
         CStr (format_2f (low row)); CStr (format_2f (close row));
         CStr (format_2f (volume row));
         CStr (sma_field sma_list i); CStr (format_2f pct) ].
Proof.
  unfold output_row, sma_field, len.
  destruct (sma_list !! i) as [s|] eqn:Hs.
  - pose proof (lookup_lt_Some _ _ _ Hs).
    rewrite (proj2 (Z.ltb_lt _ _)) by lia.
    by rewrite (py_getitem_lookup _ _ _ Hs).
  - apply lookup_ge_None in Hs.
    by rewrite (proj2 (Z.ltb_ge _ _)) by lia.
Qed.

Lemma csv_line_row (row : Candle) (sma_list : list Qc) (i : nat) (pct : Qc) :
  csv_line [ CInt (timestamp row);
             CStr (format_2f (open row)); CStr (format_2f (high row));
             CStr (format_2f (low row)); CStr (format_2f (close row));
             CStr (format_2f (volume row));
             CStr (sma_field sma_list i); CStr (format_2f pct) ]
  = join "," (row_fields row (sma_field sma_list i) (format_2f pct)) +:+ CRLF.
Proof.
  unfold csv_line, row_fields. simpl fmap.
  unfold compose, cell_text.
  by rewrite csv_field_str_of_int, !csv_field_format_2f,
             (proj1 (sma_field_plain sma_list i)).
Qed.

Lemma row_fields_line (row : Candle) (sma_list : list Qc) (i : nat) (pct : Qc) :
  string_forall line_char
    (join "," (row_fields row (sma_field sma_list i) (format_2f pct))) = true.
Proof.
  apply join_forall; [done|]. unfold row_fields.
  repeat (apply Forall_cons; split);
    try (apply number_line_char, format_2f_shape).
  - apply number_line_char, str_of_int_number.
  - apply sma_field_plain.
  - apply Forall_nil. done.
Qed.

Lemma write_rows_Ok (data : list Candle) (sma_list : list Qc) (pct : Qc)
    (k : nat) (text : string) :
  write_rows (Z.of_nat k) data sma_list pct text
  = (text +:+ unlines (join "," <$>
       imap (λ i row, row_fields row (sma_field sma_list (k + i))
                                 (format_2f pct)) data),
     Ok tt).
Proof.
  revert k text. induction data as [|row data IH]; intros k text.
  - simpl. by rewrite app_empty_r.
  - simpl write_rows. rewrite output_row_Ok, csv_line_row.
    replace (Z.of_nat k + 1) with (Z.of_nat (S k)) by lia.
    rewrite IH. f_equal. rewrite imap_cons, fmap_cons.
    assert (imap ((λ i row, row_fields row (sma_field sma_list (k + i))
                                       (format_2f pct)) ∘ S) data
            = imap (λ i row, row_fields row (sma_field sma_list (S k + i))
                                        (format_2f pct)) data) as ->
      by (apply imap_ext; intros i x _; simpl; do 2 f_equal; lia).
    change (unlines (?x :: ?l)) with (x +:+ CRLF +:+ unlines l).
    by rewrite Nat.add_0_r, !str_app_assoc.
Qed.

Lemma csv_text_Ok (data : list Candle) (sma_list : list Qc) (pct : Qc) :
  csv_text data sma_list pct
  = (unlines (header_line :: (join "," <$> csv_rows data sma_list pct)),
     Ok tt).
Proof.
  unfold csv_text. change 0 with (Z.of_nat 0). by rewrite write_rows_Ok.
Qed.

Lemma write_csv_Ok (data : list Candle) (sma_list : list Qc) (pct : Qc)
    (out_path : string) (files : gmap string string) :
  write_csv data sma_list pct out_path None files
  = (<[out_path :=
         unlines (header_line :: (join "," <$> csv_rows data sma_list pct))]>
       files,
     (["Data successfully written to " +:+ out_path], Return tt)).
Proof. unfold write_csv. by rewrite csv_text_Ok. Qed.

Lemma csv_lines_split (data : list Candle) (sma_list : list Qc) (pct : Qc) :
  splitlines
    (unlines (header_line :: (join "," <$> csv_rows data sma_list pct)))
  = header_line :: (join "," <$> csv_rows data sma_list pct).
Proof.
  apply splitlines_unlines. apply Forall_cons; split; [done|].
  apply Forall_fmap, Forall_lookup. intros i fields.
  unfold csv_rows. rewrite list_lookup_imap_Some.
  intros (row & _ & ->). apply row_fields_line.
Qed.

Example format_2f_examples :
  format_2f (Q2Qc (1 # 8)) = "0.12"%string ∧
  format_2f (Q2Qc (3 # 8)) = "0.38"%string ∧
  format_2f (Q2Qc (-123456 # 100)) = "-1234.56"%string ∧
  format_2f (Q2Qc (1999 # 1000)) = "2.00"%string ∧
  format_2f (Q2Qc (-1 # 1000)) = "-0.00"%string.
Proof. vm_compute. done. Qed.

Example write_csv_example :
  (write_csv [sample_candle; candle_at 7] [of_int 50005] (Q2Qc (1 # 3))
             "out.csv" None ∅).1 !! "out.csv"%string
  = Some (unlines
      [ "timestamp,open,high,low,close,volume,sma_10,pct_change";
        "1700000061,50000.10,50010.00,49990.50,50005.25,12.50,50005.00,0.33";
        "0,0.00,0.00,0.00,7.00,0.00,,0.33" ]%string).
Proof. vm_compute. reflexivity. Qed.

(** The destination refusing [open] ends the run with exit code 1 and
    leaves the files as they were. *)
Example write_csv_io_error (data : list Candle) (sma_list : list Qc)
    (pct : Qc) (files : gmap string string) :
  write_csv data sma_list pct "out.csv" (Some "Permission denied"%string) files
  = (files, (["Error writing CSV file: Permission denied"%string], Exit 1)).
Proof. reflexivity. Qed.

(** C7: for a series of [n] candles with an SMA sequence of the same
    length, the written file is made of [n + 1] lines, each ended by the
    writer's line terminator (CR LF): the header
    [timestamp,open,high,low,close,volume,sma_10,pct_change], then for each
    candle its eight fields joined by commas; the timestamp is a plain
    integer, every decimal field is in fixed-point notation with exactly
    two digits after the point, and the [pct_change] field is the same on
    every row. *)
Theorem write_csv_artifact (data : list Candle) (sma_list : list Qc)
    (pct : Qc) (out_path : string) (files : gmap string string) :
  length sma_list = length data →
  ∃ lines : list string,
    write_csv data sma_list pct out_path None files
    = (<[out_path := unlines lines]> files,
       (["Data successfully written to " +:+ out_path], Return tt)) ∧
    splitlines (unlines lines) = lines ∧
    length lines = S (length data) ∧
    lines !! 0%nat
    = Some "timestamp,open,high,low,close,volume,sma_10,pct_change"%string ∧
    ∀ (i : nat) (row : Candle), data !! i = Some row →
      ∃ s : Qc,
        sma_list !! i = Some s ∧
        lines !! S i
        = Some (join "," [ str_of_int (timestamp row);
                           format_2f (open row); format_2f (high row);
                           format_2f (low row); format_2f (close row);
                           format_2f (volume row);
                           format_2f s; format_2f pct ]) ∧
        is_plain_int (str_of_int (timestamp row)) = true ∧
        Forall (λ x, is_fixed2 (format_2f x) = true
                     ∧ string_forall number_char (format_2f x) = true)
               [open row; high row; low row; close row; volume row; s; pct].
Proof.
  intros Hlen.
  exists (header_line :: (join "," <$> csv_rows data sma_list pct)).
  split_and!.
  - apply write_csv_Ok.
  - apply csv_lines_split.
  - simpl. unfold csv_rows. by rewrite length_fmap, length_imap.
  - done.
  - intros i row Hrow.
    destruct (lookup_lt_is_Some_2 sma_list i) as [s Hs].
    { rewrite Hlen. by eapply lookup_lt_Some. }
    exists s. split_and!; [done| |apply str_of_int_plain|].
    + simpl. unfold csv_rows.
      rewrite list_lookup_fmap, list_lookup_imap, Hrow. simpl.
      unfold sma_field. by rewrite Hs.
    + repeat (apply Forall_cons; split; [apply format_2f_shape|]).
      apply Forall_nil. done.
Qed.

Lemma write_csv_artifact_witness :
  length [of_int 50005; of_int 6] = length [sample_candle; candle_at 7] ∧
  ∃ lines : list string,
    write_csv [sample_candle; candle_at 7] [of_int 50005; of_int 6]
              (Q2Qc (1 # 3)) "out.csv" None ∅
    = (<["out.csv"%string := unlines lines]> ∅,
       (["Data successfully written to " +:+ "out.csv"], Return tt)) ∧
    splitlines (unlines lines) = lines ∧
    length lines = S (length [sample_candle; candle_at 7]) ∧
    lines !! 0%nat
    = Some "timestamp,open,high,low,close,volume,sma_10,pct_change"%string ∧
    ∀ (i : nat) (row : Candle),
      [sample_candle; candle_at 7] !! i = Some row →
      ∃ s : Qc,
        [of_int 50005; of_int 6] !! i = Some s ∧
        lines !! S i
        = Some (join "," [ str_of_int (timestamp row);
                           format_2f (open row); format_2f (high row);
                           format_2f (low row); format_2f (close row);
                           format_2f (volume row);
                           format_2f s; format_2f (Q2Qc (1 # 3)) ]) ∧
        is_plain_int (str_of_int (timestamp row)) = true ∧
        Forall (λ x, is_fixed2 (format_2f x) = true
                     ∧ string_forall number_char (format_2f x) = true)
               [open row; high row; low row; close row; volume row; s;
                Q2Qc (1 # 3)].
Proof.
  split; [reflexivity|].
  apply (write_csv_artifact [sample_candle; candle_at 7]
           [of_int 50005; of_int 6] (Q2Qc (1 # 3)) "out.csv" ∅).
  reflexivity.
Defined.

(** C8: when the SMA sequence is shorter than the series, the writer still
    succeeds, and every row at an index at or beyond the length of the SMA
    sequence has the empty string as its [sma_10] field. *)
Theorem write_csv_short_sma (data : list Candle) (sma_list : list Qc)
    (pct : Qc) (out_path : string) (files : gmap string string) :
  (length sma_list < length data)%nat →
  ∃ lines : list string,
    write_csv data sma_list pct out_path None files
    = (<[out_path := unlines lines]> files,
       (["Data successfully written to " +:+ out_path], Return tt)) ∧
    splitlines (unlines lines) = lines ∧
    length lines = S (length data) ∧
    ∀ (i : nat) (row : Candle),
      (length sma_list ≤ i)%nat → data !! i = Some row →
      lines !! S i
      = Some (join "," [ str_of_int (timestamp row);
                         format_2f (open row); format_2f (high row);
                         format_2f (low row); format_2f (close row);
                         format_2f (volume row);
                         ""%string; format_2f pct ]).
Proof.
  intros _.
  exists (header_line :: (join "," <$> csv_rows data sma_list pct)).
  split_and!.
  - apply write_csv_Ok.
  - apply csv_lines_split.
  - simpl. unfold csv_rows. by rewrite length_fmap, length_imap.
  - intros i row Hi Hrow. simpl. unfold csv_rows.
    rewrite list_lookup_fmap, list_lookup_imap, Hrow. simpl.
    unfold sma_field. by rewrite (lookup_ge_None_2 sma_list i Hi).
Qed.

Lemma write_csv_short_sma_witness :
  (length [of_int 50005] < length [sample_candle; candle_at 7])%nat ∧
  ∃ lines : list string,
    write_csv [sample_candle; candle_at 7] [of_int 50005] (Q2Qc (1 # 3))
              "out.csv" None ∅
    = (<["out.csv"%string := unlines lines]> ∅,
       (["Data successfully written to " +:+ "out.csv"], Return tt)) ∧
    splitlines (unlines lines) = lines ∧
    length lines = S (length [sample_candle; candle_at 7]) ∧
    ∀ (i : nat) (row : Candle),
      (length [of_int 50005] ≤ i)%nat →
      [sample_candle; candle_at 7] !! i = Some row →
      lines !! S i
      = Some (join "," [ str_of_int (timestamp row);
                         format_2f (open row); format_2f (high row);
                         format_2f (low row); format_2f (close row);
                         format_2f (volume row);
                         ""%string; format_2f (Q2Qc (1 # 3)) ]).
Proof.
  split; [simpl; lia|].
  apply (write_csv_short_sma [sample_candle; candle_at 7] [of_int 50005]
           (Q2Qc (1 # 3)) "out.csv" ∅).
  simpl. lia.
Defined.

(** * Further properties of the code *)

(** ** Symbol resolver *)

Lemma length_app_str (s t : string) :
  String.length (s +:+ t) = (String.length s + String.length t)%nat.
Proof.
  induction s as [|a s IH]; [done|]. rewrite app_String. simpl. by rewrite IH.
Qed.

Lemma substring_all (s : string) : substring 0 (String.length s) s = s.
Proof. induction s as [|a s IH]; [done|]. simpl. by rewrite IH. Qed.

Lemma substring_app_skip (s t : string) (m : nat) :
  substring (String.length s) m (s +:+ t) = substring 0 m t.
Proof. induction s as [|a s IH]; [done|]. by rewrite app_String. Qed.

Lemma endswith_app (s suffix : string) : endswith (s +:+ suffix) suffix = true.
Proof.
  unfold endswith. rewrite length_app_str.
  rewrite (proj2 (Nat.leb_le _ _)) by lia.
  replace (String.length s + String.length suffix - String.length suffix)%nat
    with (String.length s) by lia.
  rewrite substring_app_skip, substring_all. simpl. apply String.eqb_refl.
Qed.

Lemma substring_split (s : string) (k : nat) :
  (k ≤ String.length s)%nat →
  s = substring 0 k s +:+ substring k (String.length s - k) s.
Proof.
  revert k. induction s as [|a s IH]; intros [|k] Hk; simpl in *; try lia.
  - done.
  - by rewrite app_empty_l, substring_all.
  - rewrite app_String. f_equal. apply IH. lia.
Qed.

Lemma endswith_inv (s suffix : string) :
  endswith s suffix = true → ∃ t, s = t +:+ suffix.
Proof.
  unfold endswith. intros [Hm Heq]%andb_true_iff.
  apply Nat.leb_le in Hm. apply String.eqb_eq in Heq.
  exists (substring 0 (String.length s - String.length suffix) s).
  rewrite <- Heq at 2.
  rewrite (substring_split s (String.length s - String.length suffix)) at 1
    by lia.
  do 2 f_equal. lia.
Qed.

Lemma string_map_app (f : ascii → ascii) (s t : string) :
  string_map f (s +:+ t) = string_map f s +:+ string_map f t.
Proof.
  induction s as [|a s IH]; [done|]. rewrite app_String. simpl.
  by rewrite IH.
Qed.

Lemma string_map_compose (f g h : ascii → ascii) (s : string) :
  (∀ a, f (g a) = h a) → string_map f (string_map g s) = string_map h s.
Proof.
  intros Hfg. induction s as [|a s IH]; [done|]. simpl. by rewrite Hfg, IH.
Qed.

Lemma ascii_case_laws (a : ascii) :
  ascii_lower (ascii_lower a) = ascii_lower a ∧
  ascii_upper (ascii_lower a) = ascii_upper a ∧
  ascii_lower (ascii_upper a) = ascii_lower a ∧
  ascii_upper (ascii_upper a) = ascii_upper a.
Proof. destruct a as [[] [] [] [] [] [] [] []]; vm_compute; done. Qed.

Lemma lower_lower (s : string) : lower (lower s) = lower s.
Proof. apply string_map_compose, ascii_case_laws. Qed.
Lemma upper_lower (s : string) : upper (lower s) = upper s.
Proof. apply string_map_compose, ascii_case_laws. Qed.
Lemma lower_upper (s : string) : lower (upper s) = lower s.
Proof. apply string_map_compose, ascii_case_laws. Qed.
Lemma upper_upper (s : string) : upper (upper s) = upper s.
Proof. apply string_map_compose, ascii_case_laws. Qed.

(** No key of the mapping ends with the lower-cased suffix. *)
Lemma symbol_map_key_suffix (k v : string) :
  symbol_map !! k = Some v → endswith k "usdt" = false.
Proof.
  intros H%symbol_map_lookup. unfold symbol_entries in H.
  repeat (apply elem_of_cons in H as [[= -> ->]|H]; [reflexivity|]).
  by apply elem_of_nil in H.
Qed.

(** Every mapped pair is its own upper-case form. *)
Lemma symbol_map_upper (k v : string) :
  symbol_map !! k = Some v → upper v = v.
Proof.
  intros H%symbol_map_lookup. unfold symbol_entries in H.
  repeat (apply elem_of_cons in H as [[= -> ->]|H]; [reflexivity|]).
  by apply elem_of_nil in H.
Qed.

(** The three outcomes of the resolver. *)
Lemma resolve_cases (symbol : string) :
  (∃ pair, symbol_map !! lower symbol = Some pair ∧ resolve symbol = pair) ∨
  (symbol_map !! lower symbol = None ∧
   endswith (upper symbol) "USDT" = true ∧ resolve symbol = upper symbol) ∨
  (symbol_map !! lower symbol = None ∧
   endswith (upper symbol) "USDT" = false ∧
   resolve symbol = upper symbol +:+ "USDT").
Proof.
  unfold resolve. destruct (symbol_map !! lower symbol) as [pair|] eqn:Hk.
  - left. exists pair. split; [done|]. simpl.
    by rewrite (symbol_map_suffix _ _ Hk).
  - right. simpl. rewrite ?andb_false_r.
    destruct (endswith (upper symbol) "USDT"); auto.
Qed.

(** X1: whatever the input, the resolved trading pair ends with [USDT]. *)
Theorem resolve_suffix (symbol : string) :
  endswith (resolve symbol) "USDT" = true.
Proof.
  destruct (resolve_cases symbol)
    as [(pair & Hk & ->)|[(_ & He & ->)|(_ & _ & ->)]].
  - by apply (symbol_map_suffix (lower symbol)).
  - done.
  - apply endswith_app.
Qed.

(** X2: the resolver is case-insensitive: lower-casing or upper-casing the
    input does not change the trading pair. *)
Theorem resolve_case_insensitive (symbol : string) :
  resolve (lower symbol) = resolve symbol ∧
  resolve (upper symbol) = resolve symbol.
Proof.
  unfold resolve.
  by rewrite lower_lower, upper_lower, lower_upper, upper_upper.
Qed.

(** X3: resolving is idempotent: a resolved trading pair resolves to
    itself. *)
Theorem resolve_idempotent (symbol : string) :
  resolve (resolve symbol) = resolve symbol.
Proof.
  set (pair := resolve symbol).
  assert (endswith pair "USDT" = true) as Hs.
  { subst pair. destruct (resolve_cases symbol)
      as [(p & Hk & ->)|[(_ & He & ->)|(_ & _ & ->)]].
    - by apply (symbol_map_suffix (lower symbol)).
    - done.
    - apply endswith_app. }
  assert (upper pair = pair) as Hu.
  { subst pair. destruct (resolve_cases symbol)
      as [(p & Hk & ->)|[(_ & He & ->)|(_ & _ & ->)]].
    - by apply (symbol_map_upper (lower symbol)).
    - apply upper_upper.
    - unfold upper. rewrite string_map_app. fold (upper symbol).
      fold (upper (upper symbol)). by rewrite upper_upper. }
  assert (symbol_map !! lower pair = None) as Hk.
  { destruct (symbol_map !! lower pair) as [v|] eqn:Hv; [|done].
    apply symbol_map_key_suffix in Hv.
    destruct (endswith_inv _ _ Hs) as [t Ht].
    rewrite Ht in Hv. unfold lower in Hv. rewrite string_map_app in Hv.
    change (string_map ascii_lower "USDT") with "usdt"%string in Hv.
    by rewrite endswith_app in Hv. }
  destruct (resolve_cases pair) as [(p & Hp & _)|[(_ & _ & ->)|(_ & He & _)]].
  - congruence.
  - done.
  - rewrite Hu in He. congruence.
Qed.

(** ** Market data fetcher *)



Lemma foldM_app {A B : Type} (f : B → A → result B) (acc : B)
    (l1 l2 : list A) :
  foldM f acc (l1 ++ l2) = foldM f acc l1 ≫= λ acc', foldM f acc' l2.
Proof.
  revert acc. induction l1 as [|x l1 IH]; intros acc; simpl; [done|].
  destruct (f acc x) as [acc'|e]; simpl; [apply IH|done].
Qed.

Lemma foldM_snoc_shift {A B : Type} (d : A → result B) (l : list A)
    (acc : list B) :
  foldM (λ acc x, y ← d x; Ok (acc ++ [y])) acc l
  = foldM (λ acc x, y ← d x; Ok (acc ++ [y])) [] l ≫= λ ys, Ok (acc ++ ys).
Proof.
  revert acc. induction l as [|x l IH]; intros acc; simpl.
  - by rewrite app_nil_r.
  - destruct (d x) as [y|e]; simpl; [|done].
    rewrite (IH (acc ++ [y])), (IH [y]).
    destruct (foldM _ [] l) as [ys|e]; simpl; [|done].
    by rewrite <- app_assoc.
Qed.

Section Fetcher_more.

Variable float_of_str : string → result Qc.

(** What [fetch_ohlcv] prints and how it ends, for a body of at least one
    record. *)
Lemma fetch_ohlcv_body (symbol : string) (data : list (list json)) :
  data ≠ [] →
  fetch_ohlcv float_of_str symbol (JsonBody data)
  = let fetching := "Fetching data for " +:+ resolve symbol +:+ "..." in
    let warning := "Warning: Only " +:+ str_of_int (len data)
                   +:+ " minutes of data available (expected 60)" in
    if len data <? 10 then
      ([fetching; warning;
        "Error: Insufficient data for analysis (need at least 10 minutes)"],
       Exit 1)
    else
      match convert_klines float_of_str data with
      | Ok candles =>
          (fetching :: (if len data <? 60 then [warning] else [])
             ++ ["Successfully fetched " +:+ str_of_int (len candles)
                 +:+ " minutes of OHLCV data"],
           Return candles)
      | Raise e =>
          (fetching :: (if len data <? 60 then [warning] else []), Uncaught e)
      end.
Proof.
  intros Hne. destruct data as [|kline data']; [done|].
  set (data := kline :: data') in *.
  unfold fetch_ohlcv. fold data.
  cbv beta iota zeta delta [mbind io_bind print sys_exit mret io_ret lift data].
  fold data.
  destruct (len data <? 10) eqn:H10.
  - apply Z.ltb_lt in H10. by rewrite (proj2 (Z.ltb_lt _ 60)) by lia.
  - destruct (len data <? 60);
      by destruct (convert_klines float_of_str data).
Qed.

(** X4: when [fetch_ohlcv] returns a series, the response was a body of at
    least 10 records, and the series is its record-by-record decoding: the
    same number of candles, in the same order. *)
Theorem fetch_ohlcv_returns (symbol : string) (reply : http_reply)
    (out : list string) (candles : list Candle) :
  fetch_ohlcv float_of_str symbol reply = (out, Return candles) →
  ∃ data : list (list json),
    reply = JsonBody data ∧ 10 ≤ len data ∧ len candles = len data ∧
    Forall2 (λ kline row, decode_kline float_of_str kline = Ok row)
            data candles.
Proof.
  destruct reply as [e|e|data]; [done|done|].
  destruct data as [|kline data']; [done|].
  rewrite fetch_ohlcv_body by done. cbv zeta.
  destruct (len (kline :: data') <? 10) eqn:H10; [done|].
  apply Z.ltb_ge in H10.
  destruct (convert_klines float_of_str (kline :: data')) as [cs|e] eqn:Hc;
    [|done].
  intros [= _ ->]. exists (kline :: data').
  apply convert_klines_Forall2 in Hc.
  split_and!; [done|done| |done].
  unfold len. by rewrite (Forall2_length _ _ _ Hc).
Qed.

(** X5: [fetch_ohlcv] exits exactly when the response is an exception of
    the request, a body that is not JSON, or a body of fewer than 10
    records; the exit code is then 1. *)
Theorem fetch_ohlcv_exits (symbol : string) (reply : http_reply) :
  ((fetch_ohlcv float_of_str symbol reply).2 = Exit 1 ↔
   ∀ data, reply = JsonBody data → len data < 10) ∧
  ∀ code, (fetch_ohlcv float_of_str symbol reply).2 = Exit code → code = 1.
Proof.
  destruct reply as [e|e|data].
  - split; [|by intros code [= <-]]. by split.
  - split; [|by intros code [= <-]]. by split.
  - destruct data as [|kline data'].
    { split; [|by intros code [= <-]].
      split; [|done]. intros _ data [= <-]. unfold len. simpl. lia. }
    rewrite fetch_ohlcv_body by done. cbv zeta.
    destruct (len (kline :: data') <? 10) eqn:H10.
    + apply Z.ltb_lt in H10. split; [|by intros code [= <-]].
      split; [|done]. by intros _ data [= <-].
    + apply Z.ltb_ge in H10.
      destruct (convert_klines float_of_str (kline :: data')).
      * split; [|done]. split; [done|].
        intros H. specialize (H _ eq_refl). lia.
      * split; [|done]. split; [done|].
        intros H. specialize (H _ eq_refl). lia.
Qed.

(** X6: a malformed record in a body of at least 10 records is not a
    clean exit: the exception raised by the conversion loop leaves
    [fetch_ohlcv] uncaught, after the same lines were printed as for a
    well-formed body, and without the success line. *)
Theorem fetch_ohlcv_malformed (symbol : string) (data : list (list json))
    (e : PyError) :
  10 ≤ len data → convert_klines float_of_str data = Raise e →
  fetch_ohlcv float_of_str symbol (JsonBody data)
  = (("Fetching data for " +:+ resolve symbol +:+ "...")
       :: (if len data <? 60
           then ["Warning: Only " +:+ str_of_int (len data)
                 +:+ " minutes of data available (expected 60)"]
           else []),
     Uncaught e).
Proof.
  intros Hn Hc.
  rewrite fetch_ohlcv_body by (intros ->; unfold len in Hn; simpl in Hn; lia).
  cbv zeta. rewrite (proj2 (Z.ltb_ge _ 10)) by done. by rewrite Hc.
Qed.

(** X8: converting two batches of records one after the other is
    converting their concatenation: the candles are appended in order, and
    the first record that fails decides the exception. *)
Theorem convert_klines_app (data1 data2 : list (list json)) :
  convert_klines float_of_str (data1 ++ data2)
  = candles1 ← convert_klines float_of_str data1;
    candles2 ← convert_klines float_of_str data2;
    Ok (candles1 ++ candles2).
Proof.
  unfold convert_klines. rewrite foldM_app.
  destruct (foldM _ [] data1) as [candles1|e]; simpl; [|done].
  apply (foldM_snoc_shift (decode_kline float_of_str)).
Qed.

End Fetcher_more.

(** ** Indicator engine: moving average *)

Lemma of_int_pos (z : Z) : 0 < z → (Q2Qc 0 < of_int z)%Qc.
Proof.
  intros Hz. unfold Qclt, of_int, Q2Qc; simpl. rewrite !Qred_correct.
  unfold Qlt; simpl. lia.
Qed.

Lemma of_int_neq_0 (z : Z) : z ≠ 0 → of_int z ≠ Q2Qc 0.
Proof.
  intros Hz. change (Q2Qc 0) with (of_int 0). by rewrite of_int_inj.
Qed.

Lemma mean_singleton (x : Qc) : mean [x] = x.
Proof.
  unfold mean. simpl. rewrite Qcplus_0_r.
  change (of_int (len [x])) with (Q2Qc 1). unfold Qcdiv.
  assert ((/ Q2Qc 1)%Qc = Q2Qc 1) as -> by (by apply Qc_is_canon).
  apply Qcmult_1_r.
Qed.

Lemma take_1_drop {A : Type} (l : list A) (i : nat) (x : A) :
  l !! i = Some x → take 1 (drop i l) = [x].
Proof.
  revert i. induction l as [|y l IH]; intros [|i] Hi; simplify_eq/=.
  - by rewrite take_0.
  - by apply IH.
Qed.

(** X9: with a window of 1 the moving average is the series of close
    prices itself. *)
Theorem compute_sma_window_one (data : list Candle) :
  compute_sma data 1 = Ok (close <$> data).
Proof.
  rewrite compute_sma_Ok by lia. f_equal.
  apply list_eq. intros i. rewrite !list_lookup_fmap.
  destruct (data !! i) as [c|] eqn:Hc.
  - rewrite lookup_seq_lt by (by eapply lookup_lt_Some). simpl.
    rewrite (proj2 (Z.ltb_ge _ _)) by lia. f_equal.
    unfold closes_between.
    replace (Z.to_nat (Z.of_nat i - (Z.of_nat i - 1 + 1) + 1)) with 1%nat
      by lia.
    replace (Z.to_nat (Z.of_nat i - 1 + 1)) with i by lia.
    rewrite (take_1_drop _ _ _ Hc). apply mean_singleton.
  - apply lookup_ge_None in Hc. by rewrite lookup_seq_ge by lia.
Qed.

(** X10: when the window is longer than the series, no position has a full
    window and the moving average is the series of close prices itself. *)
Theorem compute_sma_long_window (data : list Candle) (w : Z) :
  len data < w → compute_sma data w = Ok (close <$> data).
Proof.
  intros Hw. unfold len in Hw. rewrite compute_sma_Ok by lia. f_equal.
  apply list_eq. intros i. rewrite !list_lookup_fmap.
  destruct (data !! i) as [c|] eqn:Hc.
  - pose proof (lookup_lt_Some _ _ _ Hc).
    rewrite lookup_seq_lt by done. simpl.
    rewrite (proj2 (Z.ltb_lt _ _)) by lia. by rewrite Hc.
  - apply lookup_ge_None in Hc. by rewrite lookup_seq_ge by lia.
Qed.

Lemma compute_sma_long_window_witness :
  len (candle_at <$> [3; 5; 4]) < 10 ∧
  compute_sma (candle_at <$> [3; 5; 4]) 10
  = Ok (close <$> (candle_at <$> [3; 5; 4])).
Proof.
  split; [done|].
  by apply (compute_sma_long_window (candle_at <$> [3; 5; 4]) 10).
Defined.

Lemma sma_step_negative (data : list Candle) (w i : Z) (acc : list Qc) :
  w < 0 → 0 ≤ i → sma_step data w acc i = Ok (acc ++ [Q2Qc 0]).
Proof.
  intros Hw Hi. unfold sma_step.
  rewrite (proj2 (Z.ltb_ge _ _)) by lia.
  unfold py_range. replace (Z.to_nat (i + 1 - (i - w + 1))) with 0%nat by lia.
  simpl. rewrite py_truediv_Ok by (apply of_int_neq_0; lia). simpl.
  unfold Qcdiv. by rewrite Qcmult_0_l.
Qed.

(** X11: a window that is not positive is not rejected: with a window of
    0 every non-empty series raises [ZeroDivisionError], and with a
    negative window the result is a sequence of zeros as long as the
    series. *)
Theorem compute_sma_nonpositive_window (data : list Candle) (w : Z) :
  (w = 0 → data ≠ [] → compute_sma data w = Raise ZeroDivisionError) ∧
  (w < 0 → compute_sma data w = Ok (replicate (length data) (Q2Qc 0))).
Proof.
  split.
  - intros -> Hne. destruct data as [|c data]; [done|].
    unfold compute_sma, len. rewrite py_range_nat. reflexivity.
  - intros Hw. unfold compute_sma, len. rewrite py_range_nat.
    rewrite (foldM_snoc _ (λ _, Q2Qc 0)).
    + simpl. f_equal. rewrite <- list_fmap_compose.
      rewrite (const_fmap _ _ (Q2Qc 0)) by done. by rewrite length_seq.
    + intros j acc (i & -> & _)%list_elem_of_fmap.
      apply sma_step_negative; lia.
Qed.

Lemma compute_sma_nonpositive_window_witness :
  compute_sma [candle_at 7; candle_at 8] 0 = Raise ZeroDivisionError ∧
  compute_sma [candle_at 7; candle_at 8] (-3)
  = Ok (replicate (length [candle_at 7; candle_at 8]) (Q2Qc 0)).
Proof.
  split.
  - by apply (proj1 (compute_sma_nonpositive_window
                       [candle_at 7; candle_at 8] 0)).
  - apply (proj2 (compute_sma_nonpositive_window
                    [candle_at 7; candle_at 8] (-3))). lia.
Defined.

Lemma closes_between_app (data more : list Candle) (a b : Z) :
  0 ≤ a → a ≤ b → b < len data →
  closes_between (data ++ more) a b = closes_between data a b.
Proof.
  intros Ha Hb Hn. unfold closes_between, len in *.
  rewrite drop_app_le by lia.
  by rewrite take_app_le by (rewrite length_drop; lia).
Qed.

(** X12: the moving average has no look-ahead: the values computed for a
    series stay the same when more candles are appended to it. *)
Theorem compute_sma_causal (data more : list Candle) (w : Z) :
  1 ≤ w →
  ∃ sma rest : list Qc,
    compute_sma data w = Ok sma ∧
    compute_sma (data ++ more) w = Ok (sma ++ rest).
Proof.
  intros Hw. rewrite !compute_sma_Ok by done.
  rewrite length_app, seq_app, fmap_app. do 2 eexists. split; [done|].
  do 2 f_equal. apply list_fmap_ext. intros k i Hi. simpl.
  apply lookup_seq in Hi as [-> Hi]. simpl.
  rewrite lookup_app_l by done.
  destruct (Z.ltb_spec (Z.of_nat k) (w - 1)); [done|].
  by rewrite closes_between_app by (unfold len; lia).
Qed.

Lemma compute_sma_causal_witness :
  1 ≤ 2 ∧
  ∃ sma rest : list Qc,
    compute_sma (candle_at <$> [3; 5; 4]) 2 = Ok sma ∧
    compute_sma ((candle_at <$> [3; 5; 4]) ++ (candle_at <$> [9; 1])) 2
    = Ok (sma ++ rest).
Proof.
  split; [done|].
  by apply (compute_sma_causal (candle_at <$> [3; 5; 4])
              (candle_at <$> [9; 1]) 2).
Defined.

Lemma py_getitem_fmap {A B : Type} (f : A → B) (l : list A) (j : Z) :
  py_getitem (f <$> l) j = f <$> py_getitem l j.
Proof.
  unfold py_getitem, len. rewrite length_fmap. cbv zeta.
  destruct (_ || _); [done|].
  rewrite list_lookup_fmap. by destruct (l !! _).
Qed.

Lemma getitem_close {B : Type} (data : list Candle) (j : Z)
    (g : Qc → result B) :
  (py_getitem data j ≫= λ row, g (close row))
  = (py_getitem (close <$> data) j ≫= g).
Proof. rewrite py_getitem_fmap. by destruct (py_getitem data j). Qed.

Lemma mapM_ext_result {A B : Type} (f g : A → result B) (l : list A) :
  (∀ x, f x = g x) → mapM f l = mapM g l.
Proof.
  intros Hfg. induction l as [|x l IH]; [done|].
  change (mapM f (x :: l)) with (y ← f x; k ← mapM f l; mret (y :: k)).
  change (mapM g (x :: l)) with (y ← g x; k ← mapM g l; mret (y :: k)).
  by rewrite Hfg, IH.
Qed.

Lemma foldM_ext {A B : Type} (f g : B → A → result B) (acc : B)
    (l : list A) :
  (∀ acc' x, f acc' x = g acc' x) → foldM f acc l = foldM g acc l.
Proof.
  intros Hfg. revert acc. induction l as [|x l IH]; intros acc; [done|].
  simpl. rewrite Hfg. destruct (g acc x); simpl; [apply IH|done].
Qed.

(** X13: the moving average reads nothing but the close prices: two series
    with the same close prices have the same moving average, for every
    window, the failing ones included. *)
Theorem compute_sma_closes_only (data1 data2 : list Candle) (w : Z) :
  close <$> data1 = close <$> data2 →
  compute_sma data1 w = compute_sma data2 w.
Proof.
  intros Hc. unfold compute_sma.
  assert (len data1 = len data2) as ->.
  { unfold len. apply (f_equal length) in Hc.
    rewrite !length_fmap in Hc. by rewrite Hc. }
  apply foldM_ext. intros acc i. unfold sma_step.
  destruct (i <? w - 1).
  - by rewrite !(getitem_close _ _ (λ x, Ok (acc ++ [x]))), Hc.
  - f_equal. apply mapM_ext_result. intros j.
    by rewrite !(getitem_close _ _ (λ x, Ok x)), Hc.
Qed.

Lemma compute_sma_closes_only_witness :
  compute_sma [candle_at 100; candle_at 150] 2
  = compute_sma
      [ {| timestamp := 60; open := of_int 1; high := of_int 2;
           low := of_int 3; close := of_int 100; volume := of_int 4 |};
        candle_at 150 ] 2.
Proof.
  by apply (compute_sma_closes_only [candle_at 100; candle_at 150]).
Defined.

(** ** Indicator engine: percentage change *)

Lemma Qcinv_pos (x : Qc) : (Q2Qc 0 < x)%Qc → (Q2Qc 0 < / x)%Qc.
Proof.
  unfold Qclt, Qcinv, Q2Qc; simpl. rewrite !Qred_correct.
  apply Qinv_lt_0_compat.
Qed.

Lemma Qcmult_pos (x c : Qc) :
  (Q2Qc 0 < c)%Qc → ((Q2Qc 0 < x * c)%Qc ↔ (Q2Qc 0 < x)%Qc).
Proof.
  intros Hc. split.
  - intros Hxc. destruct (Qclt_le_dec (Q2Qc 0) x) as [|Hx]; [done|].
    exfalso. apply (Qcle_not_lt (x * c) (Q2Qc 0)); [|done].
    rewrite <- (Qcmult_0_l c).
    by apply Qcmult_le_compat_r; [|apply Qclt_le_weak].
  - intros Hx. rewrite <- (Qcmult_0_l c) at 1.
    by apply Qcmult_lt_compat_r.
Qed.

Lemma Qcminus_eq_0 (x y : Qc) : (x - y)%Qc = Q2Qc 0 ↔ x = y.
Proof.
  split; [|intros ->; apply Qcplus_opp_r].
  intros H. rewrite <- (Qcplus_0_l y), <- H. unfold Qcminus.
  by rewrite <- Qcplus_assoc, (Qcplus_comm (- y)), Qcplus_opp_r, Qcplus_0_r.
Qed.

(** X14: when the first and the last close price are equal, the percentage
    change is zero; in particular on a series of constant close price. *)
Theorem compute_pct_change_flat (data : list Candle) (first last_ : Candle) :
  head data = Some first → last data = Some last_ →
  close first = close last_ →
  compute_pct_change data = Ok (Q2Qc 0).
Proof.
  intros Hf Hl Heq.
  destruct (decide (length data < 2)%nat) as [Hn|Hn].
  { by apply compute_pct_change_short. }
  rewrite (compute_pct_change_ends data first last_) by (done || lia).
  destruct (Qc_eq_bool (close first) (Q2Qc 0)); [done|].
  rewrite <- Heq, (proj2 (Qcminus_eq_0 _ _)) by done.
  unfold Qcdiv. by rewrite !Qcmult_0_l.
Qed.

Lemma compute_pct_change_flat_witness :
  compute_pct_change [candle_at 100; candle_at 250; candle_at 100]
  = Ok (Q2Qc 0).
Proof.
  by apply (compute_pct_change_flat _ (candle_at 100) (candle_at 100)).
Defined.

(** X15: for a positive first close price, the sign of the percentage
    change is the direction of the move from the first to the last close
    price, it is zero exactly when they are equal, and it is at least -100
    when the last close price is not negative. *)
Theorem compute_pct_change_direction (data : list Candle)
    (first last_ : Candle) :
  (2 ≤ length data)%nat → head data = Some first → last data = Some last_ →
  (Q2Qc 0 < close first)%Qc →
  ∃ pct : Qc,
    compute_pct_change data = Ok pct ∧
    ((Q2Qc 0 < pct)%Qc ↔ (close first < close last_)%Qc) ∧
    (pct = Q2Qc 0 ↔ close last_ = close first) ∧
    ((Q2Qc 0 <= close last_)%Qc → (- of_int 100 <= pct)%Qc).
Proof.
  intros Hn Hf Hl Hpos.
  assert (close first ≠ Q2Qc 0) as Hne.
  { intros H. rewrite H in Hpos. by apply Qclt_not_eq in Hpos. }
  rewrite (compute_pct_change_ends data first last_) by done.
  rewrite (proj2 (Qc_eq_bool_false _ _) Hne).
  set (f := close first) in *. set (l := close last_) in *.
  set (c := (/ f * of_int 100)%Qc).
  assert ((Q2Qc 0 < c)%Qc) as Hc.
  { apply Qcmult_pos; [by apply of_int_pos|]. by apply Qcinv_pos. }
  assert (((l - f) / f * of_int 100)%Qc = ((l - f) * c)%Qc) as ->.
  { unfold c, Qcdiv. by rewrite Qcmult_assoc. }
  eexists. split; [done|]. split_and!.
  - rewrite Qcmult_pos by done. symmetry. apply Qclt_minus_iff.
  - rewrite <- (Qcminus_eq_0 l f). split; [|by intros ->; rewrite Qcmult_0_l].
    intros [H| ->]%Qcmult_integral; [done|].
    by apply Qclt_not_eq in Hc.
  - intros Hl0. apply Qcle_minus_iff.
    assert (((l - f) * c + - - of_int 100)%Qc = (l * c)%Qc) as ->.
    { unfold c. field. done. }
    rewrite <- (Qcmult_0_l c).
    by apply Qcmult_le_compat_r; [|apply Qclt_le_weak].
Qed.

Lemma compute_pct_change_direction_witness :
  ∃ pct : Qc,
    compute_pct_change [candle_at 100; candle_at 250; candle_at 150] = Ok pct ∧
    ((Q2Qc 0 < pct)%Qc ↔ (close (candle_at 100) < close (candle_at 150))%Qc) ∧
    (pct = Q2Qc 0 ↔ close (candle_at 150) = close (candle_at 100)) ∧
    ((Q2Qc 0 <= close (candle_at 150))%Qc → (- of_int 100 <= pct)%Qc).
Proof.
  apply (compute_pct_change_direction
           [candle_at 100; candle_at 250; candle_at 150]
           (candle_at 100) (candle_at 150));
    [simpl; lia|done|done|done].
Defined.

(** ** Tabular writer *)

Lemma fields_from_app (cur f rest : string) :
  string_forall field_char f = true →
  fields_from cur (f +:+ rest) = fields_from (cur +:+ f) rest.
Proof.
  revert cur. induction f as [|a f IH]; intros cur Hf.
  - by rewrite app_empty_l, app_empty_r.
  - simpl in Hf. apply andb_true_iff in Hf as [Ha Hf].
    apply negb_true_iff in Ha.
    rewrite app_String. simpl. rewrite Ha, IH by done.
    by rewrite str_app_assoc.
Qed.

(** Cutting a joined line at the commas gives back the fields, when no
    field holds a comma. *)
Lemma split_commas_join (fields : list string) :
  fields ≠ [] →
  Forall (λ f, string_forall field_char f = true) fields →
  split_commas (join "," fields) = fields.
Proof.
  unfold split_commas. destruct fields as [|f fields]; [done|]. intros _.
  revert f. induction fields as [|g fields IH]; intros f Hfs.
  - apply Forall_cons in Hfs as [Hf _].
    simpl join. rewrite <- (app_empty_r f) at 1.
    by rewrite fields_from_app.
  - apply Forall_cons in Hfs as [Hf Hfs].
    change (join "," (f :: g :: fields))
      with (f +:+ "," +:+ join "," (g :: fields)).
    rewrite fields_from_app, app_empty_l by done.
    rewrite app_String, app_empty_l.
    change (fields_from f (String "," ?r)) with (f :: fields_from "" r).
    by rewrite IH.
Qed.

Lemma number_field_char (s : string) :
  string_forall number_char s = true → string_forall field_char s = true.
Proof.
  apply string_forall_impl. intros a Ha. unfold field_char.
  destruct (number_char_plain a Ha) as [Hs _].
  unfold csv_special in Hs. by destruct (Ascii.eqb a ",").
Qed.

Lemma row_fields_comma_free (row : Candle) (sma_list : list Qc) (i : nat)
    (pct : Qc) :
  Forall (λ f, string_forall field_char f = true)
         (row_fields row (sma_field sma_list i) (format_2f pct)).
Proof.
  unfold row_fields.
  repeat (apply Forall_cons; split);
    try (apply number_field_char, format_2f_shape).
  - apply number_field_char, str_of_int_number.
  - unfold sma_field. destruct (sma_list !! i); [|done].
    apply number_field_char, format_2f_shape.
  - apply Forall_nil. done.
Qed.

(** X16: reading the written file back gives what was written: cut into
    lines and each line cut at the commas, it is the eight column names
    followed by the eight fields of every candle, in order; no field is
    quoted or holds a comma. *)
Theorem write_csv_read_back (data : list Candle) (sma_list : list Qc)
    (pct : Qc) (out_path : string) (files : gmap string string) :
  ∃ text : string,
    (write_csv data sma_list pct out_path None files).1 !! out_path
    = Some text ∧
    split_commas <$> splitlines text
    = fieldnames :: csv_rows data sma_list pct.
Proof.
  rewrite write_csv_Ok. eexists. split; [apply lookup_insert_eq|].
  rewrite csv_lines_split, fmap_cons. f_equal.
  rewrite <- list_fmap_compose. unfold csv_rows.
  apply list_eq. intros i. rewrite list_lookup_fmap, list_lookup_imap.
  destruct (data !! i) as [row|]; [|done].
  cbn [fmap option_fmap option_map compose]. f_equal.
  apply (split_commas_join (row_fields row _ _));
    [done|apply row_fields_comma_free].
Qed.

Lemma csv_rows_take (data : list Candle) (sma_list : list Qc) (pct : Qc) :
  csv_rows data (take (length data) sma_list) pct = csv_rows data sma_list pct.
Proof.
  unfold csv_rows. apply imap_ext. intros i row Hi. f_equal.
  unfold sma_field. by rewrite lookup_take_lt by (by eapply lookup_lt_Some).
Qed.

(** X17: SMA values beyond the length of the series are never written:
    the writer behaves as on the SMA sequence cut to the length of the
    series. *)
Theorem write_csv_surplus_sma (data : list Candle) (sma_list : list Qc)
    (pct : Qc) (out_path : string) (io_error : option string)
    (files : gmap string string) :
  write_csv data sma_list pct out_path io_error files
  = write_csv data (take (length data) sma_list) pct out_path io_error files.
Proof.
  destruct io_error as [e|]; [done|].
  by rewrite !write_csv_Ok, csv_rows_take.
Qed.

(** ** Entry point *)

Section Main_properties.

Variable float_of_str : string → result Qc.

Lemma fetch_ohlcv_few (symbol : string) (reply : http_reply) :
  (∀ data, reply = JsonBody data → len data < 10) →
  ∃ out, fetch_ohlcv float_of_str symbol reply = (out, Exit 1).
Proof.
  intros Hfew. destruct reply as [e|e|data]; [by eexists|by eexists|].
  destruct data as [|kline data']; [by eexists|].
  rewrite fetch_ohlcv_body by done. cbv zeta.
  rewrite (proj2 (Z.ltb_lt _ 10)) by (by apply Hfew). by eexists.
Qed.

Lemma compute_pct_change_total (data : list Candle) :
  ∃ pct, compute_pct_change data = Ok pct.
Proof.
  destruct (decide (length data < 2)%nat) as [Hn|Hn].
  { eexists. by apply compute_pct_change_short. }
  destruct data as [|first data']; [simpl in Hn; lia|].
  destruct (last (first :: data')) as [last_|] eqn:Hl.
  2:{ by apply last_None in Hl. }
  eexists. apply (compute_pct_change_ends _ first last_); [lia|done..].
Qed.

(** [main] when the fetch stage ends the run. *)
Lemma main_fetch_stops (symbol output : option string) (reply : http_reply)
    (io_error : option string) (files : gmap string string)
    (out : list string) :
  (∀ code,
     fetch_ohlcv float_of_str (default "bitcoin"%string symbol) reply
     = (out, Exit code) →
     main float_of_str symbol output reply io_error files
     = (files, (out, Exit code))) ∧
  (∀ e,
     fetch_ohlcv float_of_str (default "bitcoin"%string symbol) reply
     = (out, Uncaught e) →
     main float_of_str symbol output reply io_error files
     = (files, (out, Uncaught e))).
Proof. split; intros ? Hf; unfold main; by rewrite Hf. Qed.

(** [main] when the fetch stage returns a series. *)
Lemma main_fetch_returns (symbol output : option string) (reply : http_reply)
    (io_error : option string) (files : gmap string string)
    (out : list string) (ohlcv_data : list Candle) (sma : list Qc) (pct : Qc) :
  fetch_ohlcv float_of_str (default "bitcoin"%string symbol) reply
  = (out, Return ohlcv_data) →
  compute_sma ohlcv_data 10 = Ok sma →
  compute_pct_change ohlcv_data = Ok pct →
  let args_output := default "crypto_indicators.csv"%string output in
  let computed :=
    [ "Computing indicators..."%string;
      "10-minute SMA computed for " +:+ str_of_int (len sma)
        +:+ " data points";
      "Overall percentage change: " +:+ format_2f pct +:+ "%" ] in
  main float_of_str symbol output reply io_error files
  = match io_error with
    | None =>
        (<[args_output :=
             unlines (header_line
                        :: (join "," <$> csv_rows ohlcv_data sma pct))]> files,
         (out ++ computed
            ++ [ "Data successfully written to " +:+ args_output;
                 "Analysis complete! Results saved to " +:+ args_output ],
          Return tt))
    | Some e =>
        (files,
         (out ++ computed ++ ["Error writing CSV file: " +:+ e], Exit 1))
    end.
Proof.
  intros Hf Hsma Hpct args_output computed. subst args_output computed.
  unfold main. rewrite Hf.
  cbv beta iota zeta delta [mbind io_bind print sys_exit mret io_ret lift].
  rewrite Hsma, Hpct. cbv beta iota.
  destruct io_error as [e|].
  - simpl. by rewrite ?app_nil_r, <- ?app_assoc.
  - rewrite write_csv_Ok. cbv beta iota zeta. simpl.
    by rewrite ?app_nil_r, <- ?app_assoc.
Qed.

(** X20: when the provider answers with an exception, a body that is not
    JSON or fewer than 10 records, [main] exits with code 1 and no file is
    created or changed, whatever the destination. *)
Theorem main_fetch_failure (symbol output : option string)
    (reply : http_reply) (io_error : option string)
    (files : gmap string string) :
  (∀ data, reply = JsonBody data → len data < 10) →
  ∃ out : list string,
    main float_of_str symbol output reply io_error files
    = (files, (out, Exit 1)).
Proof.
  intros Hfew.
  destruct (fetch_ohlcv_few (default "bitcoin"%string symbol) reply Hfew)
    as [out Hf].
  exists out. by apply main_fetch_stops.
Qed.

(** X22: a malformed record in a body of at least 10 records makes [main]
    end on the uncaught exception of the conversion loop, after the line
    that announces the fetch and, under 60 records, the warning, and
    nothing else: no diagnostic of a failed fetch, no success line, no
    indicator; no file is created or changed. *)
Theorem main_malformed (symbol output : option string)
    (data : list (list json)) (e : PyError) (io_error : option string)
    (files : gmap string string) :
  10 ≤ len data → convert_klines float_of_str data = Raise e →
  main float_of_str symbol output (JsonBody data) io_error files
  = (files,
     (("Fetching data for "
         +:+ resolve (default "bitcoin"%string symbol) +:+ "...")
        :: (if len data <? 60
            then ["Warning: Only " +:+ str_of_int (len data)
                  +:+ " minutes of data available (expected 60)"]
            else []),
      Uncaught e)).
Proof.
  intros Hn Hc.
  assert (data ≠ []) as Hne
    by (intros ->; unfold len in Hn; simpl in Hn; lia).
  pose proof (fetch_ohlcv_body float_of_str (default "bitcoin"%string symbol)
                data Hne) as Hf.
  cbv zeta in Hf. rewrite (proj2 (Z.ltb_ge _ 10)), Hc in Hf by done.
  by apply main_fetch_stops.
Qed.

(** X23: when the series was fetched but the destination cannot be
    opened, [main] has computed and reported the indicators: after the
    lines of the fetch stage it prints [Computing indicators...], the line
    of the moving average with the number of records, and the line of the
    percentage change; the diagnostic of the writer comes last; it exits
    with code 1 and changes no file. *)
Theorem main_write_failure (symbol output : option string)
    (data : list (list json)) (ohlcv_data : list Candle) (err : string)
    (files : gmap string string) :
  10 ≤ len data → convert_klines float_of_str data = Ok ohlcv_data →
  ∃ pct_text : string,
    main float_of_str symbol output (JsonBody data) (Some err) files
    = (files,
       ((("Fetching data for "
            +:+ resolve (default "bitcoin"%string symbol) +:+ "...")
           :: (if len data <? 60
               then ["Warning: Only " +:+ str_of_int (len data)
                     +:+ " minutes of data available (expected 60)"]
               else []))
        ++ [ "Successfully fetched " +:+ str_of_int (len data)
               +:+ " minutes of OHLCV data";
             "Computing indicators...";
             "10-minute SMA computed for " +:+ str_of_int (len data)
               +:+ " data points";
             "Overall percentage change: " +:+ pct_text +:+ "%";
             "Error writing CSV file: " +:+ err ],
        Exit 1)).
Proof.
  intros Hn Hc.
  assert (len ohlcv_data = len data) as Hlen.
  { apply convert_klines_Forall2, Forall2_length in Hc. unfold len. lia. }
  destruct (compute_pct_change_total ohlcv_data) as [pct Hpct].
  pose proof (compute_sma_Ok ohlcv_data 10 ltac:(lia)) as Hsma.
  assert (data ≠ []) as Hne
    by (intros ->; unfold len in Hn; simpl in Hn; lia).
  pose proof (fetch_ohlcv_body float_of_str (default "bitcoin"%string symbol)
                data Hne) as Hf.
  cbv zeta in Hf. rewrite (proj2 (Z.ltb_ge _ 10)), Hc in Hf by done.
  rewrite (main_fetch_returns _ _ _ (Some err) _ _ _ _ _ Hf Hsma Hpct).
  exists (format_2f pct). do 2 f_equal.
  assert (len ((λ i : nat,
                  if Z.of_nat i <? 10 - 1
                  then default (Q2Qc 0) (close <$> ohlcv_data !! i)
                  else mean (closes_between ohlcv_data (Z.of_nat i - 10 + 1)
                                                        (Z.of_nat i)))
               <$> seq 0 (length ohlcv_data)) = len data) as ->.
  { rewrite <- Hlen. unfold len. by rewrite length_fmap, length_seq. }
  rewrite Hlen.
  destruct (len data <? 60); reflexivity.
Qed.

End Main_properties.

(** ** Instances on the sample records *)

Lemma fetch_ohlcv_returns_witness :
  ∃ data : list (list json),
    JsonBody (replicate 10 sample_kline) = JsonBody data ∧
    10 ≤ len data ∧
    len (replicate 10 sample_candle) = len data ∧
    Forall2 (λ kline row, decode_kline decimal_of_str kline = Ok row)
            data (replicate 10 sample_candle).
Proof.
  apply (fetch_ohlcv_returns decimal_of_str "bitcoin"
           (JsonBody (replicate 10 sample_kline))
           [ "Fetching data for BTCUSDT...";
             "Warning: Only 10 minutes of data available (expected 60)";
             "Successfully fetched 10 minutes of OHLCV data" ]%string
           (replicate 10 sample_candle)).
  vm_compute. reflexivity.
Defined.

Lemma fetch_ohlcv_malformed_witness :
  fetch_ohlcv decimal_of_str "bitcoin"
    (JsonBody (replicate 9 sample_kline ++ [[JInt 1700000061999]]))
  = (("Fetching data for " +:+ resolve "bitcoin" +:+ "...")
       :: (if len (replicate 9 sample_kline ++ [[JInt 1700000061999]]) <? 60
           then ["Warning: Only "
                 +:+ str_of_int
                       (len (replicate 9 sample_kline
                             ++ [[JInt 1700000061999]]))
                 +:+ " minutes of data available (expected 60)"]
           else []),
     Uncaught IndexError).
Proof.
  apply (fetch_ohlcv_malformed decimal_of_str "bitcoin"
           (replicate 9 sample_kline ++ [[JInt 1700000061999]]) IndexError).
  - vm_compute. discriminate.
  - vm_compute. reflexivity.
Defined.

Lemma main_fetch_failure_witness :
  ∃ out : list string,
    main decimal_of_str (Some "XRP"%string) None
         (RequestException "timed out") None ∅
    = (∅, (out, Exit 1)).
Proof.
  apply (main_fetch_failure decimal_of_str (Some "XRP"%string) None
           (RequestException "timed out") None ∅).
  intros data [=].
Defined.

Lemma main_malformed_witness :
  main decimal_of_str None None
       (JsonBody (replicate 9 sample_kline ++ [[JInt 1700000061999]]))
       None ∅
  = (∅,
     (("Fetching data for "
         +:+ resolve (default "bitcoin"%string None) +:+ "...")
        :: (if len (replicate 9 sample_kline ++ [[JInt 1700000061999]]) <? 60
            then ["Warning: Only "
                  +:+ str_of_int
                        (len (replicate 9 sample_kline
                              ++ [[JInt 1700000061999]]))
                  +:+ " minutes of data available (expected 60)"]
            else []),
      Uncaught IndexError)).
Proof.
  apply (main_malformed decimal_of_str None None
           (replicate 9 sample_kline ++ [[JInt 1700000061999]]) IndexError
           None ∅).
  - vm_compute. discriminate.
  - vm_compute. reflexivity.
Defined.

Lemma main_write_failure_witness :
  ∃ pct_text : string,
    main decimal_of_str None None (JsonBody (replicate 10 sample_kline))
         (Some "Permission denied"%string) ∅
    = (∅,
       ((("Fetching data for "
            +:+ resolve (default "bitcoin"%string None) +:+ "...")
           :: (if len (replicate 10 sample_kline) <? 60
               then ["Warning: Only "
                     +:+ str_of_int (len (replicate 10 sample_kline))
                     +:+ " minutes of data available (expected 60)"]
               else []))
        ++ [ "Successfully fetched "
               +:+ str_of_int (len (replicate 10 sample_kline))
               +:+ " minutes of OHLCV data";
             "Computing indicators...";
             "10-minute SMA computed for "
               +:+ str_of_int (len (replicate 10 sample_kline))
               +:+ " data points";
             "Overall percentage change: " +:+ pct_text +:+ "%";
             "Error writing CSV file: " +:+ "Permission denied" ],
        Exit 1)).
Proof.
  apply (main_write_failure decimal_of_str None None
           (replicate 10 sample_kline) (replicate 10 sample_candle)
           "Permission denied" ∅).
  - vm_compute. discriminate.
  - apply convert_sample.
Defined.
(** * Properties of the binary64 code *)

(** ** Rounding *)

Lemma div_half_even_cases (n d : Z) :
  B64.div_half_even n d = n / d ∨
  (B64.div_half_even n d = n / d + 1 ∧ d ≤ 2 * (n mod d)).
Proof.
  unfold B64.div_half_even. cbv zeta.
  destruct (Z.compare_spec (2 * (n mod d)) d) as [H|H|H].
  - destruct (Z.even (n / d)); [by left|right; lia].
  - by left.
  - right. lia.
Qed.

(** An int of a list length has a finite, non-zero float. *)
Lemma nearest_float_finite (w : Z) :
  1 ≤ w < 2 ^ 63 →
  ∃ (p : positive) (e : Z), B64.nearest_float w = S754_finite false p e.
Proof.
  intros Hw. unfold B64.nearest_float.
  rewrite (proj2 (Z.eqb_neq w 0)), (proj2 (Z.ltb_ge w 0)), Z.abs_eq by lia.
  unfold B64.nearest_quot, B64.log2_quot. cbv zeta.
  change (Z.log2 1) with 0. rewrite Z.sub_0_r, Z.pow_0_r, Z.mul_1_r, !Z.mul_1_l.
  pose proof (Z.log2_spec w ltac:(lia)) as [Hlo Hhi].
  pose proof (Z.log2_nonneg w) as H0.
  assert (Z.log2 w < 63) as H63 by (apply Z.log2_lt_pow2; lia).
  rewrite (proj2 (Z.leb_le _ _) Hlo).
  set (L := Z.log2 w) in *.
  rewrite (Z.max_l (L - 52) (-1074)) by lia.
  set (N := w * 2 ^ Z.max (- (L - 52)) 0).
  set (D := 2 ^ Z.max (L - 52) 0).
  assert (0 < D) as HD by (apply Z.pow_pos_nonneg; lia).
  assert (D ≤ N) as HDN.
  { unfold N, D. destruct (Z.le_ge_cases L 52) as [HL|HL].
    - rewrite (Z.max_r (L - 52) 0), Z.pow_0_r by lia.
      assert (0 < 2 ^ Z.max (- (L - 52)) 0) by (apply Z.pow_pos_nonneg; lia).
      nia.
    - rewrite (Z.max_l (L - 52) 0), (Z.max_r (- (L - 52)) 0), Z.pow_0_r by lia.
      assert (2 ^ (L - 52) ≤ 2 ^ L) by (apply Z.pow_le_mono_r; lia).
      lia. }
  assert (1 ≤ N / D) as Hq by (apply Z.div_le_lower_bound; lia).
  assert (1 ≤ B64.div_half_even N D) as Hm
    by (destruct (div_half_even_cases N D) as [->|[-> _]]; lia).
  destruct (B64.div_half_even N D =? 2 ^ 53) eqn:Hr.
  - change (2 ^ 52) with (Zpos (2 ^ 52)%positive).
    rewrite (proj2 (Z.leb_le _ _)) by lia. eauto.
  - destruct (B64.div_half_even N D) as [|p|p]; [lia| |lia].
    rewrite (proj2 (Z.leb_le _ _)) by lia. eauto.
Qed.

Lemma float_of_int_Ok (w : Z) :
  1 ≤ w < 2 ^ 63 →
  B64.float_of_int w = Ok (B64.nearest_float w) ∧
  B64.is_zero (B64.nearest_float w) = false.
Proof.
  intros Hw. unfold B64.float_of_int.
  destruct (nearest_float_finite w Hw) as (p & e & ->). done.
Qed.

(** The quotient of a float by an int of a list length. *)
Lemma py_truediv_float (x : B64.float) (w : Z) :
  1 ≤ w < 2 ^ 63 →
  B64.py_truediv (B64.NFloat x) w = Ok (B64.fdiv x (B64.nearest_float w)).
Proof.
  intros Hw. destruct (float_of_int_Ok w Hw) as [Hf Hz].
  unfold B64.py_truediv. rewrite Hf. cbn [mbind result_bind].
  unfold B64.float_truediv. by rewrite Hz.
Qed.

(** ** Indicator engine *)

Lemma b64_window_closes_Ok (data : list B64.Candle) (a k : nat) :
  (a + k ≤ length data)%nat →
  mapM (λ j, row ← py_getitem data j; Ok (B64.close row))
       (py_range (Z.of_nat a) (Z.of_nat a + Z.of_nat k))
  = Ok (B64.close <$> take k (drop a data)).
Proof.
  intros Hk. rewrite py_range_shift.
  set (g := λ j : Z, default B64.pos_zero (B64.close <$> data !! Z.to_nat j)).
  rewrite (mapM_Ok _ g).
  - f_equal. rewrite <- list_fmap_compose.
    apply list_eq. intros i. rewrite !list_lookup_fmap.
    destruct (decide (i < k)%nat) as [Hi|Hi].
    + rewrite lookup_seq_lt by done. rewrite lookup_take_lt by done.
      rewrite lookup_drop. simpl. unfold g. rewrite Nat2Z.id.
      destruct (lookup_lt_is_Some_2 data (a + i)) as [c Hc]; [lia|].
      by rewrite Hc.
    + rewrite lookup_seq_ge by lia. by rewrite lookup_take_ge by lia.
  - intros j Hj. apply list_elem_of_fmap in Hj as (i & -> & Hi).
    apply elem_of_seq in Hi.
    destruct (lookup_lt_is_Some_2 data i) as [c Hc]; [lia|].
    rewrite (py_getitem_lookup _ _ _ Hc). simpl.
    unfold g. by rewrite Nat2Z.id, Hc.
Qed.

(** What the loop of [compute_sma] appends at position [i]. *)
Lemma b64_sma_step_Ok (data : list B64.Candle) (w : Z) (i : nat)
    (c : B64.Candle) (acc : list B64.float) :
  1 ≤ w → Z.of_nat (length data) < 2 ^ 63 → data !! i = Some c →
  B64.sma_step data w acc (Z.of_nat i)
  = Ok (acc ++ [if Z.of_nat i <? w - 1 then B64.close c
                else B64.mean (B64.closes_between data (Z.of_nat i - w + 1)
                                                       (Z.of_nat i))]).
Proof.
  intros Hw Hlen Hc. pose proof (lookup_lt_Some _ _ _ Hc) as Hlt.
  unfold B64.sma_step. destruct (Z.ltb_spec (Z.of_nat i) (w - 1)) as [Hi|Hi].
  - by rewrite (py_getitem_lookup _ _ _ Hc).
  - pose proof (b64_window_closes_Ok data (Z.to_nat (Z.of_nat i - w + 1))
                  (Z.to_nat w)) as Hwin.
    rewrite !Z2Nat.id in Hwin by lia.
    replace (Z.of_nat i - w + 1 + w) with (Z.of_nat i + 1) in Hwin by lia.
    rewrite Hwin by lia. cbn [mbind result_bind].
    unfold B64.mean, B64.closes_between.
    replace (Z.of_nat i - (Z.of_nat i - w + 1) + 1) with w by lia.
    set (l := B64.close <$> take (Z.to_nat w)
                              (drop (Z.to_nat (Z.of_nat i - w + 1)) data)).
    assert (len l = w) as Hl.
    { unfold len, l. rewrite length_fmap, length_take, length_drop. lia. }
    rewrite Hl.
    assert (B64.py_sum l = B64.NFloat (foldl B64.fadd B64.pos_zero l)) as ->.
    { destruct l; [unfold len in Hl; simpl in Hl; lia|done]. }
    by rewrite py_truediv_float by lia.
Qed.

Lemma b64_compute_sma_Ok (data : list B64.Candle) (w : Z) :
  1 ≤ w → Z.of_nat (length data) < 2 ^ 63 →
  B64.compute_sma data w
  = Ok ((λ i : nat,
           if Z.of_nat i <? w - 1
           then default B64.pos_zero (B64.close <$> data !! i)
           else B64.mean (B64.closes_between data (Z.of_nat i - w + 1)
                                                  (Z.of_nat i)))
        <$> seq 0 (length data)).
Proof.
  intros Hw Hlen. unfold B64.compute_sma, len. rewrite py_range_nat.
  set (g := λ i : nat,
              if Z.of_nat i <? w - 1
              then default B64.pos_zero (B64.close <$> data !! i)
              else B64.mean (B64.closes_between data (Z.of_nat i - w + 1)
                                                     (Z.of_nat i))).
  rewrite (foldM_snoc _ (g ∘ Z.to_nat)); simpl.
  - f_equal. rewrite <- list_fmap_compose. apply list_fmap_ext.
    intros i x _. simpl. by rewrite Nat2Z.id.
  - intros j acc Hj. apply list_elem_of_fmap in Hj as (i & -> & Hi).
    apply elem_of_seq in Hi.
    destruct (lookup_lt_is_Some_2 data i) as [c Hc]; [lia|].
    rewrite (b64_sma_step_Ok _ _ _ c) by done.
    unfold g. by rewrite Nat2Z.id, Hc.
Qed.




Lemma b64_compute_pct_change_short (data : list B64.Candle) :
  (length data < 2)%nat → B64.compute_pct_change data = Ok B64.pos_zero.
Proof.
  intros Hn. unfold B64.compute_pct_change, len.
  by rewrite (proj2 (Z.ltb_lt _ _)) by lia.
Qed.

(** The value of [compute_pct_change] on a series of two candles or more,
    from its first and last candle. *)
Lemma b64_compute_pct_change_ends (data : list B64.Candle)
    (first last_ : B64.Candle) :
  (2 ≤ length data)%nat → head data = Some first → last data = Some last_ →
  B64.compute_pct_change data
  = Ok (if B64.is_zero (B64.close first) then B64.pos_zero
        else B64.fmul
               (B64.fdiv (B64.fsub (B64.close last_) (B64.close first))
                         (B64.close first))
               B64.hundred).
Proof.
  intros Hn Hf Hl. unfold B64.compute_pct_change, len.
  rewrite (proj2 (Z.ltb_ge _ _)) by lia.
  rewrite head_lookup in Hf.
  pose proof (py_getitem_lookup data 0 first Hf) as H0.
  change (Z.of_nat 0) with 0 in H0. rewrite H0. cbn [mbind result_bind].
  rewrite (py_getitem_last data last_ Hl). cbn [mbind result_bind].
  unfold B64.float_truediv.
  by destruct (B64.is_zero (B64.close first)).
Qed.

(** C2 (as the code has it): [compute_pct_change] returns [0.0] for a
    series of length 0 or 1 and for a series whose first close is zero; for
    every other series it returns the binary64 value of
    [((close[last] - close[first]) / close[first]) * 100], each of the
    three operations rounded; closes 100 then 150 give 50.0, closes 200
    then 100 give -50.0. *)
Theorem b64_compute_pct_change_spec :
  (∀ data : list B64.Candle,
     (length data < 2)%nat →
     B64.compute_pct_change data = Ok B64.pos_zero) ∧
  (∀ (data : list B64.Candle) (first : B64.Candle),
     head data = Some first → B64.is_zero (B64.close first) = true →
     B64.compute_pct_change data = Ok B64.pos_zero) ∧
  (∀ (data : list B64.Candle) (first last_ : B64.Candle),
     (2 ≤ length data)%nat → head data = Some first →
     last data = Some last_ → B64.is_zero (B64.close first) = false →
     B64.compute_pct_change data
     = Ok (B64.fmul
             (B64.fdiv (B64.fsub (B64.close last_) (B64.close first))
                       (B64.close first))
             (B64.nearest_float 100))) ∧
  (∀ c1 c2 : B64.Candle,
     B64.close c1 = B64.nearest_float 100 →
     B64.close c2 = B64.nearest_float 150 →
     B64.compute_pct_change [c1; c2] = Ok (B64.nearest_float 50)) ∧
  (∀ c1 c2 : B64.Candle,
     B64.close c1 = B64.nearest_float 200 →
     B64.close c2 = B64.nearest_float 100 →
     B64.compute_pct_change [c1; c2] = Ok (B64.nearest_float (-50))).
Proof.
  split_and!.
  - apply b64_compute_pct_change_short.
  - intros data first Hf Hz.
    destruct (decide (length data < 2)%nat) as [Hn|Hn].
    { by apply b64_compute_pct_change_short. }
    destruct (last data) as [last_|] eqn:Hl.
    2:{ apply last_None in Hl. by subst. }
    rewrite (b64_compute_pct_change_ends data first last_) by (done || lia).
    by rewrite Hz.
  - intros data first last_ Hn Hf Hl Hz.
    rewrite (b64_compute_pct_change_ends data first last_) by done.
    by rewrite Hz.
  - intros c1 c2 H1 H2.
    rewrite (b64_compute_pct_change_ends [c1; c2] c1 c2)
      by (done || simpl; lia).
    rewrite H1, H2. vm_compute. reflexivity.
  - intros c1 c2 H1 H2.
    rewrite (b64_compute_pct_change_ends [c1; c2] c1 c2)
      by (done || simpl; lia).
    rewrite H1, H2. vm_compute. reflexivity.
Qed.

Lemma b64_compute_pct_change_spec_witness :
  B64.compute_pct_change [] = Ok B64.pos_zero ∧
  B64.compute_pct_change
    [B64.candle_at (S754_zero true); B64.candle_at (B64.literal "9")]
  = Ok B64.pos_zero ∧
  B64.compute_pct_change
    [B64.candle_at (B64.literal "1000"); B64.candle_at (B64.literal "980.5");
     B64.candle_at (B64.literal "962.25")]
  = Ok (B64.fmul
          (B64.fdiv (B64.fsub (B64.literal "962.25") (B64.literal "1000"))
                    (B64.literal "1000"))
          (B64.nearest_float 100)) ∧
  B64.compute_pct_change
    [B64.candle_at (B64.nearest_float 100);
     B64.candle_at (B64.nearest_float 150)]
  = Ok (B64.nearest_float 50) ∧
  B64.compute_pct_change
    [B64.candle_at (B64.nearest_float 200);
     B64.candle_at (B64.nearest_float 100)]
  = Ok (B64.nearest_float (-50)).
Proof.
  destruct b64_compute_pct_change_spec as (H1 & H2 & H3 & H4 & H5).
  split_and!.
  - apply H1. simpl. lia.
  - by apply (H2 _ (B64.candle_at (S754_zero true))).
  - apply (H3 _ (B64.candle_at (B64.literal "1000"))
                (B64.candle_at (B64.literal "962.25")));
      [simpl; lia|done|done|reflexivity].
  - by apply H4.
  - by apply H5.
Defined.

(** On closes 3 then 4 the code returns [4691249611844266 / 2^47]
    (33.33333333333333), not [((4 - 3) / 3) * 100 = 100/3]: C2 fails of
    the code where a binary64 operation is inexact. *)
Lemma compute_pct_change_not_exact :
  (pct ← B64.compute_pct_change
           [B64.candle_at (B64.nearest_float 3);
            B64.candle_at (B64.nearest_float 4)];
   Ok (B64.exact_value pct))
  = Ok (Some (4691249611844266 # 140737488355328)) ∧
  Qeq_bool (4691249611844266 # 140737488355328)
           ((4 - 3) / 3 * 100)%Q = false.
Proof. vm_compute. done. Qed.

(** X24: in binary64 too, [compute_sma] (for a window [w >= 1]) and
    [compute_pct_change] return a value on every series: the conversion of
    the window to a float does not overflow, and no divisor is zero. *)
Theorem b64_indicators_total (data : list B64.Candle) (w : Z) :
  1 ≤ w → Z.of_nat (length data) < 2 ^ 63 →
  (∃ sma : list B64.float, B64.compute_sma data w = Ok sma) ∧
  (∃ pct : B64.float, B64.compute_pct_change data = Ok pct).
Proof.
  intros Hw Hlen. split.
  - eexists. by apply b64_compute_sma_Ok.
  - destruct (decide (length data < 2)%nat) as [Hn|Hn].
    { eexists. by apply b64_compute_pct_change_short. }
    destruct data as [|first data']; [simpl in Hn; lia|].
    destruct (last (first :: data')) as [last_|] eqn:Hl.
    2:{ by apply last_None in Hl. }
    eexists. apply (b64_compute_pct_change_ends _ first last_); [lia|done..].
Qed.

Lemma b64_indicators_total_witness :
  (1 ≤ 10 ∧ Z.of_nat (length B64.late_rise) < 2 ^ 63) ∧
  (∃ sma : list B64.float, B64.compute_sma B64.late_rise 10 = Ok sma) ∧
  (∃ pct : B64.float, B64.compute_pct_change B64.late_rise = Ok pct).
Proof.
  split; [split; [lia|reflexivity]|].
  apply (b64_indicators_total B64.late_rise 10); [lia|reflexivity].
Defined.

(** ** Decoder *)





Section Decoder_properties.

Variable float_of_str : string → result B64.float.





End Decoder_properties.



(** ** The model against the Standard Library's floats *)

(** The correctly rounded quotient of two ints is the IEEE quotient of
    their floats where these are exact, and the float of an int is its
    normalisation. *)
Example nearest_quot_agrees :
  B64.nearest_quot false 1 3
  = SFdiv prec emax (S754_finite false 1 0) (S754_finite false 3 0) ∧
  B64.nearest_quot true 2675 1000
  = SFdiv prec emax (S754_finite true 2675 0) (S754_finite false 1000 0) ∧
  B64.nearest_quot false 1700000061999 1000
  = SFdiv prec emax (S754_finite false 1700000061999 0)
                    (S754_finite false 1000 0) ∧
  B64.nearest_float 17592186044416999
  = binary_normalize prec emax 17592186044416999 0 false ∧
  B64.nearest_float (2 ^ 53 + 1) = binary_normalize prec emax (2 ^ 53 + 1) 0 false ∧
  B64.nearest_float (2 ^ 53 + 3) = binary_normalize prec emax (2 ^ 53 + 3) 0 false ∧
  B64.nearest_float (2 ^ 1024) = S754_infinity false ∧
  B64.nearest_quot false 1 (2 ^ 1075) = S754_zero false.
Proof. vm_compute. done. Qed.

(** The operations of [spec_float] are those of the machine: the mean of
    [late_rise] computed with the primitive floats is the same float. *)
Example mean_agrees_with_primitive_floats :
  Prim2SF
    (PrimFloat.div
       (foldl PrimFloat.add (SF2Prim B64.pos_zero)
              (SF2Prim <$> (B64.close <$> B64.late_rise)))
       (SF2Prim (B64.nearest_float 10)))
  = B64.mean (B64.close <$> B64.late_rise).
Proof. vm_compute. reflexivity. Qed.

(** Ints too large for a float raise [OverflowError] in the decoder. *)
Example decode_kline_overflow :
  B64.decode_kline B64.float_of_decimal (B64.kline_at (10 ^ 400) "50005.25")
  = Raise OverflowError.
Proof. vm_compute. reflexivity. Qed.
